(** * Relevance scoring and result selection of the document-query webhook

    A shallow embedding of [src/webhook.py]: the scorer
    [calculate_tfidf_score], the storage helper [get_public_url], the
    candidate passes of [search_videos] and [search_content_with_retry],
    the retry decorator and the [webhook] route with its two response
    builders.

    Conventions of the embedding.
    - A Python [str] is a [string]: a sequence of code points below 256,
      with [str.lower], the regular-expression class [\w] and
      [str.isspace] as Python defines them on that range.
    - Scores are rationals ([Q], compared with [==] and [<]). The first
      parts take the scorer in exact arithmetic, for the properties that
      rounding leaves as they are. The part on binary64 takes it with
      the rounding of the floats and the iteration order of the set of
      query words, for the properties that turn on the exact value of a
      score: the formula, a score on a threshold, a tie.
    - A Firestore document is a finite map from field names to scalar
      values ([None], [bool], [int] and [str]; the other types a field
      can hold are outside the embedding); a collection is read through
      a stream that yields documents and may break with an exception at
      any point.
    - Logging is left out, except where evaluating the logged expression
      can raise. *)

From Stdlib Require Import ZArith QArith Qround Qabs Lqa String Ascii.
From Stdlib Require Import DecimalString.
From Stdlib Require Floats.
From stdpp Require Import gmap strings list fin_maps sorting.

(** ** The Python runtime: strings and dynamic values *)

Module Py.

(** [str.lower] on one code point: the ASCII capitals and the Latin-1
    capitals 192..222 (the multiplication sign 215 apart) move up by 32. *)
Definition lower_char (c : ascii) : ascii :=
  let n := N_of_ascii c in
  if ((65 <=? n) && (n <=? 90)
      || (192 <=? n) && (n <=? 222) && negb (n =? 215))%N
  then ascii_of_N (n + 32) else c.

Fixpoint lower (s : string) : string :=
  match s with
  | EmptyString => EmptyString
  | String c s' => String (lower_char c) (lower s')
  end.

(** The class [\w] of the [re] module on a [str] pattern: the underscore
    and every alphanumeric code point. *)
Definition is_word_char (c : ascii) : bool :=
  let n := N_of_ascii c in
  ((48 <=? n) && (n <=? 57) || (65 <=? n) && (n <=? 90) || (n =? 95)
   || (97 <=? n) && (n <=? 122)
   || (n =? 170) || (n =? 178) || (n =? 179) || (n =? 181)
   || (n =? 185) || (n =? 186) || (188 <=? n) && (n <=? 190)
   || (192 <=? n) && (n <=? 214) || (216 <=? n) && (n <=? 246)
   || (248 <=? n) && (n <=? 255))%N.

(** [str.isspace] on one code point, as used by [str.strip]. *)
Definition is_space_char (c : ascii) : bool :=
  let n := N_of_ascii c in
  ((9 <=? n) && (n <=? 13) || (28 <=? n) && (n <=? 32)
   || (n =? 133) || (n =? 160))%N.

Definition flush (run : string) : list string :=
  match run with
  | EmptyString => []
  | _ => [run]
  end.

(** [scan_words run s]: the matches of [\w+] in [s], when [run] is the
    word-character run read so far. *)
Fixpoint scan_words (run : string) (s : string) : list string :=
  match s with
  | EmptyString => flush run
  | String c s' =>
      if is_word_char c then scan_words (run +:+ String c EmptyString) s'
      else flush run ++ scan_words EmptyString s'
  end.

(** [re.findall(r'\w+', s)]. *)
Definition findall_words (s : string) : list string :=
  scan_words EmptyString s.

Fixpoint startswith (s p : string) {struct p} : bool :=
  match p, s with
  | EmptyString, _ => true
  | String _ _, EmptyString => false
  | String a p', String b s' =>
      if Ascii.eqb a b then startswith s' p' else false
  end.

(** [needle in hay] on two [str]. *)
Fixpoint str_in (needle hay : string) : bool :=
  startswith hay needle
  || match hay with
     | EmptyString => false
     | String _ hay' => str_in needle hay'
     end.

Fixpoint lstrip (s : string) : string :=
  match s with
  | EmptyString => EmptyString
  | String c s' => if is_space_char c then lstrip s' else s
  end.

Fixpoint rstrip (s : string) : string :=
  match s with
  | EmptyString => EmptyString
  | String c s' =>
      match rstrip s' with
      | EmptyString => if is_space_char c then EmptyString else String c EmptyString
      | r => String c r
      end
  end.

(** [s.strip()]. *)
Definition strip (s : string) : string := rstrip (lstrip s).

(** The values a document field holds. *)
Inductive pyval : Type :=
  | PNone
  | PBool (b : bool)
  | PInt (z : Z)
  | PStr (s : string).

(** Truth value of an object, as [not x] and [if x] test it. *)
Definition truthy (v : pyval) : bool :=
  match v with
  | PNone => false
  | PBool b => b
  | PInt z => negb (z =? 0)%Z
  | PStr s => negb (String.eqb s EmptyString)
  end.

(** [str(v)], also the rendering of [v] inside an f-string. *)
Definition str (v : pyval) : string :=
  match v with
  | PNone => "None"
  | PBool true => "True"
  | PBool false => "False"
  | PInt z => NilEmpty.string_of_int (Z.to_int z)
  | PStr s => s
  end.

(** [collections.Counter(words)]: one increment per word, left to right. *)
Definition Counter (words : list string) : gmap string nat :=
  fold_left (fun m w => <[w := S (default 0%nat (m !! w))]> m) words ∅.

(** [sum(xs)]: starts from 0 and adds from the left. *)
Definition sum (xs : list Q) : Q := fold_left Qplus xs 0%Q.

End Py.

Import Py.

(** An [int] as a score operand. *)
Definition Qnat (n : nat) : Q := inject_Z (Z.of_nat n).

(** ** Configuration *)

Definition VIDEO_THRESHOLD : Q := 1 # 1000.
Definition TEXT_THRESHOLD : Q := 5 # 100.
Definition IMAGE_THRESHOLD : Q := 1 # 100.

(** ** The scorer *)

(** [calculate_tfidf_score(query, text)]. The query is always a [str];
    the text is whatever the document field holds. A text that is not a
    [str] and not falsy makes [text.lower()] raise, which the function's
    own handler turns into [0.0]. *)
Definition calculate_tfidf_score (query : string) (text : pyval) : Q :=
  (if negb (truthy (PStr query)) || negb (truthy text) then 0
  else
    match text with
    | PStr text =>
        let query_words : gset string :=
          list_to_set (findall_words (lower query)) in
        let text_words := findall_words (lower text) in
        if bool_decide (query_words = ∅) || bool_decide (text_words = [])
        then 0
        else
          let text_freq := Counter text_words in
          let total_words := length text_words in
          let base_score :=
            sum (map (fun word =>
                        Qnat (default 0%nat (text_freq !! word))
                        / Qnat total_words)
                     (filter (fun word => is_Some (text_freq !! word))
                             (elements query_words)))
            / Qnat (size query_words) in
          let exact_match_bonus :=
            if str_in (lower query) (lower text) then 1 else 0 in
          let title_match_bonus :=
            if str_in "title" (lower text)
               && existsb (fun word => str_in word (lower text))
                          (elements query_words)
            then 1 # 2 else 0 in
          base_score + exact_match_bonus + title_match_bonus
    | _ => 0
    end)%Q.

(** ** Results, documents and the repository *)

Abbreviation doc := (gmap string pyval).

(** The dictionaries the search hands back, told apart by their ["type"]
    entry. A text or image result is built field by field; a video result
    is the document itself with ["score"] and ["type"] assigned. *)
Inductive result : Type :=
  | TextResult (content source page : pyval) (score : Q)
  | ImageResult (image_url : string) (description source page : pyval)
                (score : Q)
  | VideoResult (video_data : doc) (score : Q).

(** [x["score"]]. *)
Definition score_of (x : result) : Q :=
  match x with
  | TextResult _ _ _ s => s
  | ImageResult _ _ _ _ s => s
  | VideoResult _ s => s
  end.

Inductive content_type : Type := text | image | video.

(** [x["type"]]. *)
Definition type_of (x : result) : content_type :=
  match x with
  | TextResult _ _ _ _ => text
  | ImageResult _ _ _ _ _ => image
  | VideoResult _ _ => video
  end.

(** What iterating [db.collection(name).stream()] does: it ends, it
    raises, or it yields one more document. *)
Inductive stream : Type :=
  | Done
  | Broken
  | Yield (d : doc) (rest : stream).

Record database : Type := {
  pdf_text : stream;
  pdf_images_new : stream;
  videos : stream
}.

Fixpoint yielded (s : stream) : list doc :=
  match s with
  | Done | Broken => []
  | Yield d rest => d :: yielded rest
  end.

Fixpoint breaks (s : stream) : bool :=
  match s with
  | Done => false
  | Broken => true
  | Yield _ rest => breaks rest
  end.


(** ** Effects: the clock and the trace of repository calls *)

Inductive event : Type :=
  | Fetch (collection : string)
  | Sleep (seconds : Z).

Record state : Type := { now : Z; trace : list event }.

Definition M (A : Type) : Type := state -> A * state.

#[global] Instance M_ret : MRet M := fun A a st => (a, st).
#[global] Instance M_bind : MBind M :=
  fun A B k m st => let '(a, st') := m st in k a st'.

Inductive exn : Type :=
  | KeyError (key : string)
  | AttributeError
  | TypeError
  | RuntimeError
  | BadRequest
  | RepositoryError.

Inductive outcome (A : Type) : Type :=
  | Return (a : A)
  | Raise (e : exn).
Arguments Return {A} a.
Arguments Raise {A} e.

(** [db.collection(name).stream()]. *)
Definition collection (db : database) (name : string) : M stream :=
  fun st =>
    (if String.eqb name "pdf_text" then pdf_text db
     else if String.eqb name "pdf_images_new" then pdf_images_new db
     else if String.eqb name "videos" then videos db
     else Done,
     {| now := now st; trace := trace st ++ [Fetch name] |}).

(** [int(time.time())]. *)
Definition time_time : M Z := fun st => (now st, st).

(** [time.sleep(seconds)]. *)
Definition time_sleep (seconds : Z) : M unit :=
  fun st => (tt, {| now := now st + seconds;
                    trace := trace st ++ [Sleep seconds] |}).

(** [a > b] on scores. *)
Definition Qgtb (a b : Q) : bool :=
  match (b ?= a)%Q with
  | Lt => true
  | _ => false
  end.

(** [max(x :: xs, key=lambda x: x["score"])]: a later item replaces the
    running maximum only when its key is strictly greater. *)
Fixpoint max_from (best : result) (xs : list result) : result :=
  match xs with
  | [] => best
  | x :: xs' =>
      max_from (if Qgtb (score_of x) (score_of best) then x else best) xs'
  end.

(** [d.get(key, dflt)] on a document. *)
Definition get (d : doc) (key : string) (dflt : pyval) : pyval :=
  default dflt (d !! key).

(** ** Public URLs *)

Definition BUCKET_NAME : string := "allpdfs-bucket".

Definition hex_digit (n : N) : ascii :=
  if (n <? 10)%N then ascii_of_N (48 + n) else ascii_of_N (55 + n).

Definition percent (b : N) : string :=
  String "%" (String (hex_digit (b / 16))
                     (String (hex_digit (b mod 16)) EmptyString)).

(** The UTF-8 bytes of one code point below 256. *)
Definition utf8 (c : ascii) : list N :=
  let n := N_of_ascii c in
  if (n <? 128)%N then [n] else [(192 + n / 64)%N; (128 + n mod 64)%N].

(** The bytes [urllib.parse.quote] leaves as they are: the unreserved
    characters and the default [safe='/']. *)
Definition quote_safe (b : N) : bool :=
  ((48 <=? b) && (b <=? 57) || (65 <=? b) && (b <=? 90)
   || (97 <=? b) && (b <=? 122)
   || (b =? 95) || (b =? 46) || (b =? 45) || (b =? 126) || (b =? 47))%N.

Definition quote_byte (b : N) : string :=
  if quote_safe b then String (ascii_of_N b) EmptyString else percent b.

Fixpoint quote_str (s : string) : string :=
  match s with
  | EmptyString => EmptyString
  | String c s' =>
      fold_right (fun b acc => quote_byte b +:+ acc) (quote_str s') (utf8 c)
  end.

(** [urllib.parse.quote(v)]: defined on [str], a [TypeError] on the other
    values of a field. *)
Definition quote (v : pyval) : outcome string :=
  match v with
  | PStr s => Return (quote_str s)
  | _ => Raise TypeError
  end.

(** [get_public_url(image_path)]. *)
Definition get_public_url (image_path : pyval) : M (option string) :=
  if negb (truthy image_path) then mret None
  else
    match quote image_path with
    | Raise _ => mret None
    | Return encoded_path =>
        t ← time_time;
        mret (Some ("https://storage.googleapis.com/" +:+ BUCKET_NAME
                    +:+ "/" +:+ encoded_path +:+ "?t=" +:+ str (PInt t)))
    end.

(** ** The candidate passes *)

(** The keyword test both [search_content_with_retry] and [webhook] make
    on the query. *)
Definition is_video_request (query : string) : bool :=
  existsb (fun word => str_in word (lower query))
          ["video"; "watch"; "play"; "show video"].

(** The loop of [search_videos] over the stream, [results] being the
    list built so far. A stream that raises ends the loop with the
    exception. *)
Fixpoint videos_loop (query : string) (videos_docs : stream)
    (results : list result) : outcome (list result) :=
  match videos_docs with
  | Done => Return results
  | Broken => Raise RepositoryError
  | Yield video_data rest =>
      let title := str (get video_data "title" (PStr "")) in
      let description := str (get video_data "description" (PStr "")) in
      let searchable_text := title +:+ " " +:+ description in
      let score := calculate_tfidf_score query (PStr searchable_text) in
      videos_loop query rest
        (if Qgtb score VIDEO_THRESHOLD
         then results ++ [VideoResult video_data score]
         else results)
  end.

(** [search_videos(query)]. *)
Definition search_videos (db : database) (query : string)
    : M (list result) :=
  videos_docs ← collection db "videos";
  match videos_loop query videos_docs [] with
  | Return results => mret results
  | Raise _ => mret []
  end.

(** The text loop of [search_content_with_retry]; the handler around it
    only logs, so what was appended before the stream raised stays. *)
Fixpoint text_loop (query : string) (text_docs : stream)
    (results : list result) : list result :=
  match text_docs with
  | Done => results
  | Broken => results
  | Yield data rest =>
      let content := get data "content" (PStr "") in
      let score := calculate_tfidf_score query content in
      text_loop query rest
        (if Qgtb score TEXT_THRESHOLD
         then results ++ [TextResult content
                            (get data "source_file" (PStr "Unknown"))
                            (get data "page" (PStr "N/A")) score]
         else results)
  end.

(** The image loop of [search_content_with_retry]. *)
Fixpoint image_loop (query : string) (image_docs : stream)
    (results : list result) : M (list result) :=
  match image_docs with
  | Done => mret results
  | Broken => mret results
  | Yield data rest =>
      let image_path := get data "image_path" (PStr "") in
      if negb (truthy image_path) then image_loop query rest results
      else
        image_url ← get_public_url image_path;
        match image_url with
        | None => image_loop query rest results
        | Some image_url =>
            if negb (truthy (PStr image_url))
            then image_loop query rest results
            else
              let description :=
                get data "description"
                  (PStr ("Image from "
                         +:+ str (get data "source_file"
                                    (PStr "unknown document"))
                         +:+ " page " +:+ str (get data "page" (PStr ""))))
              in
              let score := calculate_tfidf_score query description in
              image_loop query rest
                (if Qgtb score IMAGE_THRESHOLD
                 then results ++ [ImageResult image_url description
                                    (get data "source_file" (PStr "Unknown"))
                                    (get data "page" (PStr "N/A")) score]
                 else results)
        end
  end.

(** [max(results, key=...)] behind the [if results:] guard. *)
Definition best_of (results : list result) : option result :=
  match results with
  | [] => None
  | x :: xs => Some (max_from x xs)
  end.

(** [x["title"]]: only a video document can have the key. *)
Definition title_of (x : result) : outcome pyval :=
  match x with
  | VideoResult video_data _ =>
      match video_data !! "title" with
      | Some v => Return v
      | None => Raise (KeyError "title")
      end
  | _ => Raise (KeyError "title")
  end.

(** The part of [search_content_with_retry] after the video branch. *)
Definition general_search (db : database) (query : string)
    (is_video_request : bool) : M (option result) :=
  text_docs ← collection db "pdf_text";
  let results := text_loop query text_docs [] in
  image_docs ← collection db "pdf_images_new";
  results ← image_loop query image_docs results;
  results ←
    (if negb is_video_request
     then video_results ← search_videos db query;
          mret (results ++ video_results)
     else mret results);
  mret (best_of results).

(** The body of [search_content_with_retry], before decoration. The
    message logged for the best video reads [best_video['title']]. *)
Definition search_content (db : database) (query : string)
    : M (outcome (option result)) :=
  let is_video_request := is_video_request query in
  if is_video_request then
    video_results ← search_videos db query;
    match video_results with
    | x :: xs =>
        let best_video := max_from x xs in
        match title_of best_video with
        | Raise e => mret (Raise e)
        | Return _ => mret (Return (Some best_video))
        end
    | [] =>
        best_match ← general_search db query is_video_request;
        mret (Return best_match)
    end
  else
    best_match ← general_search db query is_video_request;
    mret (Return best_match).

(** ** The retry decorator *)

(** The [while retries < max_retries] loop of [wrapper]: [remaining] is
    [max_retries - retries]. The bare [raise] after the loop has no
    active exception left and raises [RuntimeError]. *)
Fixpoint retry_loop {A : Type} (func : M (outcome A))
    (remaining retries : nat) : M (outcome A) :=
  match remaining with
  | O => mret (Raise RuntimeError)
  | S remaining' =>
      r ← func;
      match r with
      | Return a => mret (Return a)
      | Raise _ =>
          let retries := S retries in
          let sleep_time := Z.min (2 ^ Z.of_nat retries) 10 in
          _ ← time_sleep sleep_time;
          retry_loop func remaining' retries
      end
  end.

Definition firestore_retry_decorator {A : Type} (max_retries : nat)
    (func : M (outcome A)) : M (outcome A) :=
  retry_loop func max_retries 0.

(** [search_content_with_retry(query)], as decorated. *)
Definition search_content_with_retry (db : database) (query : string)
    : M (outcome (option result)) :=
  firestore_retry_decorator 3 (search_content db query).

(** ** Requests and responses *)

(** Parsed JSON; an object keeps its members as the pairs of the
    dictionary, each key once. *)
#[local] Set Warnings "-register-all".
Inductive json : Type :=
  | JNull
  | JBool (b : bool)
  | JNum (z : Z)
  | JStr (s : string)
  | JArr (items : list json)
  | JObj (members : list (string * json)).

Fixpoint member (key : string) (members : list (string * json))
    : option json :=
  match members with
  | [] => None
  | (k, v) :: members' =>
      if String.eqb k key then Some v else member key members'
  end.

#[global] Instance outcome_ret : MRet outcome := fun A a => Return a.
#[global] Instance outcome_bind : MBind outcome :=
  fun A B k m => match m with Return a => k a | Raise e => Raise e end.

(** [v.get(key, dflt)]: only a dictionary has the method. *)
Definition py_get (v : json) (key : string) (dflt : json) : outcome json :=
  match v with
  | JObj members => Return (default dflt (member key members))
  | _ => Raise AttributeError
  end.

Definition is_str (key : string) (v : json) : bool :=
  match v with
  | JStr s => String.eqb s key
  | _ => false
  end.

(** [key in v]: a key of a dictionary, an item of a list, a substring of
    a string; the other values are not containers. *)
Definition py_in (key : string) (v : json) : outcome bool :=
  match v with
  | JObj members => Return (bool_decide (is_Some (member key members)))
  | JArr items => Return (existsb (is_str key) items)
  | JStr s => Return (str_in key s)
  | _ => Raise TypeError
  end.

(** [v[key]] with a string key. *)
Definition py_item (v : json) (key : string) : outcome json :=
  match v with
  | JObj members =>
      match member key members with
      | Some x => Return x
      | None => Raise (KeyError key)
      end
  | _ => Raise TypeError
  end.

(** [a and b] on two tests that may raise. *)
Definition py_and (a : outcome bool) (b : outcome bool) : outcome bool :=
  x ← a; if x : bool then b else mret false.

(** The [try] block of [webhook] that reads the query: the value
    assigned to [query] when no statement raises. *)
Definition extract_query_body (data : json) : outcome json :=
  info ← py_get data "fulfillmentInfo" (JObj []);
  _ ← py_get info "tag" (JStr "");
  c1 ← py_and (py_in "sessionInfo" data)
              (si ← py_item data "sessionInfo"; py_in "parameters" si);
  if c1 : bool then
    si ← py_item data "sessionInfo";
    params ← py_item si "parameters";
    py_get params "query" (JStr "")
  else
    c2 ← py_in "text" data;
    if c2 : bool then py_item data "text"
    else
      c3 ← py_and (py_in "payload" data)
                  (p ← py_item data "payload"; py_in "queryText" p);
      if c3 : bool then
        p ← py_item data "payload";
        py_item p "queryText"
      else mret (JStr "").

(** [query] after the [try] block: an exception leaves the initial
    empty string. *)
Definition extract_query (data : json) : json :=
  match extract_query_body data with
  | Return query => query
  | Raise _ => JStr ""
  end.

Record response : Type := { body : json; status_code : Z }.

(** [error_response(message, status_code)]. *)
Definition error_response (message : string) (status_code : Z) : response :=
  {| body :=
       JObj [("sessionInfo",
              JObj [("parameters",
                     JObj [("has_image", JBool false);
                           ("has_video", JBool false)])]);
             ("fulfillmentResponse",
              JObj [("messages",
                     JArr [JObj [("text",
                                  JObj [("text",
                                         JArr [JStr ("Error: "
                                                     +:+ message)])])]])])];
     status_code := status_code |}.

(** A field value as [jsonify] writes it. *)
Definition jsonify (v : pyval) : json :=
  match v with
  | PNone => JNull
  | PBool b => JBool b
  | PInt z => JNum z
  | PStr s => JStr s
  end.

Definition nl : string := String (ascii_of_N 10) EmptyString.

Definition text_message (s : string) : json :=
  JObj [("text", JObj [("text", JArr [JStr s])])].

Definition rich_content (kind raw_url accessibility : json) : json :=
  JObj [("payload",
         JObj [("richContent",
                JArr [JArr [JObj [("type", kind);
                                  ("rawUrl", raw_url);
                                  ("accessibilityText", accessibility)]]])])].

(** [success_response(data, query)]. The pictographs of the video
    caption lie outside the code points of the model; the caption holds
    their UTF-8 bytes. *)
Definition success_response (data : result) (query : string) : response :=
  match data with
  | TextResult content source _ _ =>
      {| body :=
           JObj [("sessionInfo",
                  JObj [("parameters",
                         JObj [("has_image", JBool false);
                               ("has_video", JBool false);
                               ("query", JStr query)])]);
                 ("fulfillmentResponse",
                  JObj [("messages",
                         JArr [text_message
                                 (str content +:+ nl +:+ nl +:+ "Source: "
                                  +:+ str source)])])];
         status_code := 200 |}
  | VideoResult video_data _ =>
      let video_url := get video_data "video_url" (PStr "") in
      let title := get video_data "title" (PStr "") in
      let description := get video_data "description" (PStr "") in
      let duration := get video_data "duration" (PStr "") in
      let views := get video_data "views" (PInt 0) in
      {| body :=
           JObj [("sessionInfo",
                  JObj [("parameters",
                         JObj [("query", JStr query);
                               ("has_video", JBool true);
                               ("has_image", JBool false);
                               ("video_title", jsonify title);
                               ("video_url", jsonify video_url);
                               ("video_description", jsonify description);
                               ("video_duration", jsonify duration);
                               ("video_views", jsonify views)])]);
                 ("fulfillmentResponse",
                  JObj [("messages",
                         JArr [text_message
                                 ("🎬 **" +:+ str title +:+ "**" +:+ nl
                                  +:+ "📺 " +:+ str description +:+ nl
                                  +:+ "⏱ Duration: " +:+ str duration
                                  +:+ " | 👁 Views: " +:+ str views +:+ nl
                                  +:+ "🔗 Watch here: " +:+ str video_url);
                               rich_content (JStr "video")
                                 (jsonify video_url) (jsonify title)])])];
         status_code := 200 |}
  | ImageResult image_url _ source page _ =>
      {| body :=
           JObj [("sessionInfo",
                  JObj [("parameters",
                         JObj [("has_image", JBool true);
                               ("has_video", JBool false);
                               ("query", JStr query);
                               ("image_url", JStr image_url);
                               ("source", jsonify source);
                               ("page", jsonify page)])]);
                 ("fulfillmentResponse",
                  JObj [("messages",
                         JArr [text_message
                                 ("I found an image from " +:+ str source
                                  +:+ " (Page " +:+ str page +:+ ")");
                               rich_content (JStr "image") (JStr image_url)
                                 (JStr ("Image from " +:+ str source))])])];
         status_code := 200 |}
  end.

(** ** The route *)

Record request : Type := {
  is_json : bool;
  get_json : outcome json
}.

(** [webhook()], on the request Flask hands it. Every exception that
    escapes the steps below is answered with status 503. *)
Definition webhook (db : database) (request : request) : M response :=
  if negb (is_json request)
  then mret (error_response "Invalid content type" 400)
  else
    match get_json request with
    | Raise _ => mret (error_response "Service unavailable" 503)
    | Return data =>
        match extract_query data with
        | JStr query =>
            let query := strip query in
            if negb (truthy (PStr query))
            then mret (error_response "Invalid query" 400)
            else
              let search :=
                result ← search_content_with_retry db query;
                match result with
                | Raise _ => mret (error_response "Service unavailable" 503)
                | Return None => mret (error_response "No results found" 404)
                | Return (Some result) =>
                    mret (success_response result query)
                end in
              if is_video_request query then
                video_results ← search_videos db query;
                match video_results with
                | x :: xs =>
                    let best_video := max_from x xs in
                    match title_of best_video with
                    | Raise _ =>
                        mret (error_response "Service unavailable" 503)
                    | Return _ => mret (success_response best_video query)
                    end
                | [] => search
                end
              else search
        | _ => mret (error_response "Service unavailable" 503)
        end
    end.

(** * Notions used in the statements *)

(** ** Selection *)

(** [max] returns the first item whose key is maximal: everything before
    it is strictly smaller, everything after it is no greater. *)
Definition first_max (m : result) (l : list result) : Prop :=
  exists l1 l2 : list result,
    l = l1 ++ m :: l2
    /\ (forall x, x ∈ l1 -> (score_of x < score_of m)%Q)
    /\ (forall x, x ∈ l2 -> (score_of x <= score_of m)%Q).

(** The threshold a candidate of each type must exceed. *)
Definition threshold (ty : content_type) : Q :=
  match ty with
  | text => TEXT_THRESHOLD
  | image => IMAGE_THRESHOLD
  | video => VIDEO_THRESHOLD
  end.

(** The place of a type in the order the general search appends its
    candidates: text, then image, then video. *)
Definition rank (ty : content_type) : nat :=
  match ty with
  | text => 0
  | image => 1
  | video => 2
  end.


(** The type of [a] comes no later than the type of [b]. *)
Definition by_rank (a b : result) : Prop :=
  (rank (type_of a) <= rank (type_of b))%nat.

(** ** The passes as filters over the yielded documents *)

(** The score [search_videos] gives a video document. *)
Definition video_score (query : string) (video_data : doc) : Q :=
  calculate_tfidf_score query
    (PStr (str (get video_data "title" (PStr "")) +:+ " "
           +:+ str (get video_data "description" (PStr "")))).

(** What one video document adds to the results of [search_videos]. *)
Definition video_candidate (query : string) (video_data : doc)
    : option result :=
  let score := video_score query video_data in
  if Qgtb score VIDEO_THRESHOLD then Some (VideoResult video_data score)
  else None.

(** What one text document adds to the results of the text loop. *)
Definition text_candidate (query : string) (data : doc) : option result :=
  let content := get data "content" (PStr "") in
  let score := calculate_tfidf_score query content in
  if Qgtb score TEXT_THRESHOLD
  then Some (TextResult content (get data "source_file" (PStr "Unknown"))
               (get data "page" (PStr "N/A")) score)
  else None.

(** The URL [get_public_url] builds when the clock reads [t]. *)
Definition public_url (t : Z) (image_path : pyval) : option string :=
  if negb (truthy image_path) then None
  else
    match quote image_path with
    | Raise _ => None
    | Return encoded_path =>
        Some ("https://storage.googleapis.com/" +:+ BUCKET_NAME
              +:+ "/" +:+ encoded_path +:+ "?t=" +:+ str (PInt t))
    end.

(** What one image document adds to the results of the image loop when
    the clock reads [t]. *)
Definition image_candidate (query : string) (t : Z) (data : doc)
    : option result :=
  let image_path := get data "image_path" (PStr "") in
  if negb (truthy image_path) then None
  else
    match public_url t image_path with
    | None => None
    | Some image_url =>
        if negb (truthy (PStr image_url)) then None
        else
          let description :=
            get data "description"
              (PStr ("Image from "
                     +:+ str (get data "source_file" (PStr "unknown document"))
                     +:+ " page " +:+ str (get data "page" (PStr "")))) in
          let score := calculate_tfidf_score query description in
          if Qgtb score IMAGE_THRESHOLD
          then Some (ImageResult image_url description
                       (get data "source_file" (PStr "Unknown"))
                       (get data "page" (PStr "N/A")) score)
          else None
    end.

(** The state after the repository calls [evs]. *)
Definition logged (st : state) (evs : list event) : state :=
  {| now := now st; trace := trace st ++ evs |}.

(** What [search_videos] returns: nothing when the stream raises. *)
Definition video_results (db : database) (query : string) : list result :=
  if breaks (videos db) then []
  else omap (video_candidate query) (yielded (videos db)).

(** The list [results] of the general search when the clock reads [t]:
    text, then images, then (outside video requests) videos. *)
Definition candidate_pool (db : database) (query : string) (t : Z)
    (is_video_request : bool) : list result :=
  omap (text_candidate query) (yielded (pdf_text db))
  ++ omap (image_candidate query t) (yielded (pdf_images_new db))
  ++ (if is_video_request then [] else video_results db query).


(** ** The formula of the score *)

(** Some character of [s] is a word character. *)
Fixpoint has_word_char (s : string) : bool :=
  match s with
  | EmptyString => false
  | String c s' => is_word_char c || has_word_char s'
  end.

(** [a] occurs in [b] as a contiguous run. *)
Definition Substring (a b : string) : Prop :=
  exists pre post : string, b = pre +:+ a +:+ post.

(** The unique words of the query, in order of first occurrence. *)
Definition unique_words (s : string) : list string :=
  remove_dups (findall_words (lower s)).

(** The number of times [w] occurs among the words [ws]. *)
Fixpoint freq (w : string) (ws : list string) : nat :=
  match ws with
  | [] => 0
  | x :: ws' => if String.eqb x w then S (freq w ws') else freq w ws'
  end.

(** The base score in the words of the specification: over the unique
    query words present in the text, the sum of frequency over total
    word count, divided by the number of unique query words. *)
Definition spec_base_score (query text : string) : Q :=
  let T := findall_words (lower text) in
  (fold_right Qplus 0
     (map (fun w => Qnat (freq w T) / Qnat (length T))
          (filter (fun w => w ∈ T) (unique_words query)))
   / Qnat (length (unique_words query)))%Q.

(** ** Reading a response *)

(** The value found in a JSON document along a path of member names. *)
Fixpoint at_path (path : list string) (v : json) : option json :=
  match path with
  | [] => Some v
  | key :: path' =>
      match v with
      | JObj members =>
          match member key members with
          | Some x => at_path path' x
          | None => None
          end
      | _ => None
      end
  end.

(** ** Sample documents, repositories and requests *)

Definition st0 : state := {| now := 1700000000; trace := [] |}.

Definition text_doc (content source : string) (page : Z) : doc :=
  <["content" := PStr content]>
    (<["source_file" := PStr source]> (<["page" := PInt page]> ∅)).

Definition video_doc (title description : string) : doc :=
  <["title" := PStr title]>
    (<["description" := PStr description]>
       (<["video_url" := PStr "https://videos.example/v1"]> ∅)).

Definition image_doc (image_path : pyval) (description : string) : doc :=
  <["image_path" := image_path]>
    (<["description" := PStr description]>
       (<["source_file" := PStr "report.pdf"]> ∅)).

Definition demo_text : doc :=
  text_doc "play the demo video" "manual.pdf" 7.

Definition demo_video : doc := video_doc "Product demo" "A short tour".

Definition pasta_video : doc := video_doc "Cooking pasta" "Italian recipes".

(** One unrelated video and a text passage that matches the query. *)
Definition db_unrelated_video : database :=
  {| pdf_text := Yield demo_text Done;
     pdf_images_new := Done;
     videos := Yield pasta_video Done |}.

(** A weakly matching video next to a text that matches exactly. *)
Definition db_demo : database :=
  {| pdf_text := Yield demo_text Done;
     pdf_images_new := Done;
     videos := Yield pasta_video (Yield demo_video Done) |}.

Definition cat_text : doc := text_doc "cat" "pets.pdf" 1.
Definition cat_image : doc := image_doc (PStr "img/cat.png") "cat".
Definition cat_video : doc := video_doc "cat" EmptyString.

(** A text, an image and a video that all score 2 for the query "cat". *)
Definition db_tie : database :=
  {| pdf_text := Yield cat_text Done;
     pdf_images_new := Yield cat_image Done;
     videos := Yield cat_video Done |}.




(** Ten words, one of them a query word: 0.05 for a query of two words. *)
Definition boundary_text : doc :=
  text_doc "cat b c d e f g h i j" "pets.pdf" 4.

Definition report_text : doc :=
  text_doc "The quarterly report shows revenue growth" "report.pdf" 3.



(** An image record with a matching description and no [image_path]. *)
Definition pathless_image : doc :=
  <["description" := PStr "cat"]> (<["source_file" := PStr "pets.pdf"]> ∅).

(** A Dialogflow request whose query is three spaces. *)
Definition blank_request : request :=
  {| is_json := true;
     get_json :=
       Return (JObj [("sessionInfo",
                      JObj [("parameters",
                             JObj [("query", JStr "   ")])])]) |}.

(** * Properties *)

(** ** Score comparison and [max] *)

Lemma Qgtb_true (a b : Q) : Qgtb a b = true <-> (b < a)%Q.
Proof.
  unfold Qgtb. rewrite Qlt_alt.
  destruct (b ?= a)%Q; split; intros H; try reflexivity; discriminate H.
Qed.

Lemma Qgtb_false (a b : Q) : Qgtb a b = false <-> (a <= b)%Q.
Proof.
  split; intros H.
  - apply Qnot_lt_le. intros Hlt. apply Qgtb_true in Hlt. congruence.
  - destruct (Qgtb a b) eqn:E; [|reflexivity].
    apply Qgtb_true in E. exfalso. exact (Qlt_not_le _ _ E H).
Qed.

Lemma max_from_invariant (xs : list result) :
  forall (l1 : list result) (best : result) (l2 : list result),
    (forall x, x ∈ l1 -> (score_of x < score_of best)%Q) ->
    (forall x, x ∈ l2 -> (score_of x <= score_of best)%Q) ->
    first_max (max_from best xs) (l1 ++ best :: l2 ++ xs).
Proof.
  induction xs as [|x xs IH]; intros l1 best l2 H1 H2; simpl.
  - exists l1, l2. rewrite app_nil_r. auto.
  - destruct (Qgtb (score_of x) (score_of best)) eqn:E.
    + apply Qgtb_true in E.
      replace (l1 ++ best :: l2 ++ x :: xs)
        with ((l1 ++ best :: l2) ++ x :: [] ++ xs)
        by (rewrite <- app_assoc; reflexivity).
      apply IH.
      * intros y Hy. apply elem_of_app in Hy as [Hy|Hy].
        -- eapply Qlt_trans; [apply H1, Hy|exact E].
        -- apply elem_of_cons in Hy as [->|Hy]; [exact E|].
           eapply Qle_lt_trans; [apply H2, Hy|exact E].
      * intros y Hy. apply elem_of_nil in Hy. contradiction.
    + apply Qgtb_false in E.
      replace (l1 ++ best :: l2 ++ x :: xs)
        with (l1 ++ best :: (l2 ++ [x]) ++ xs)
        by (rewrite <- (app_assoc l2); reflexivity).
      apply IH; [exact H1|].
      intros y Hy. apply elem_of_app in Hy as [Hy|Hy]; [apply H2, Hy|].
      apply list_elem_of_singleton in Hy as ->. exact E.
Qed.

Lemma max_from_first_max (x : result) (xs : list result) :
  first_max (max_from x xs) (x :: xs).
Proof.
  apply (max_from_invariant xs [] x []); intros y Hy;
    apply elem_of_nil in Hy; contradiction.
Qed.

Lemma best_of_first_max (l : list result) (m : result) :
  best_of l = Some m -> first_max m l.
Proof.
  destruct l as [|x xs]; simpl; intros H; [discriminate|].
  injection H as <-. apply max_from_first_max.
Qed.

Lemma best_of_None (l : list result) : best_of l = None <-> l = [].
Proof. destruct l; simpl; split; intros H; congruence. Qed.

Lemma first_max_elem (m : result) (l : list result) :
  first_max m l -> m ∈ l.
Proof.
  intros (l1 & l2 & -> & _). apply elem_of_app. right. apply elem_of_cons.
  left. reflexivity.
Qed.

Lemma first_max_upper (m : result) (l : list result) :
  first_max m l -> forall x, x ∈ l -> (score_of x <= score_of m)%Q.
Proof.
  intros (l1 & l2 & -> & H1 & H2) x Hx.
  apply elem_of_app in Hx as [Hx|Hx]; [apply Qlt_le_weak, H1, Hx|].
  apply elem_of_cons in Hx as [->|Hx]; [apply Qle_refl|apply H2, Hx].
Qed.

(** ** The passes as filters over the yielded documents *)

Lemma logged_logged (st : state) (e1 e2 : list event) :
  logged (logged st e1) e2 = logged st (e1 ++ e2).
Proof. unfold logged; simpl. rewrite <- app_assoc. reflexivity. Qed.

Lemma omap_cons {A B : Type} (f : A -> option B) (x : A) (l : list A) :
  omap f (x :: l)
  = match f x with Some y => y :: omap f l | None => omap f l end.
Proof. reflexivity. Qed.

Lemma videos_loop_spec (query : string) (s : stream) :
  forall results,
    videos_loop query s results =
    if breaks s then Raise RepositoryError
    else Return (results ++ omap (video_candidate query) (yielded s)).
Proof.
  induction s as [| |d rest IH]; intros results; simpl.
  - rewrite app_nil_r. reflexivity.
  - reflexivity.
  - rewrite IH. unfold video_candidate at 2, video_score.
    destruct (breaks rest); [reflexivity|].
    destruct (Qgtb _ VIDEO_THRESHOLD); [|reflexivity].
    rewrite <- app_assoc. reflexivity.
Qed.

Lemma text_loop_spec (query : string) (s : stream) :
  forall results,
    text_loop query s results
    = results ++ omap (text_candidate query) (yielded s).
Proof.
  induction s as [| |d rest IH]; intros results; simpl.
  - rewrite app_nil_r. reflexivity.
  - rewrite app_nil_r. reflexivity.
  - rewrite IH. unfold text_candidate at 2.
    destruct (Qgtb _ TEXT_THRESHOLD); [|reflexivity].
    rewrite <- app_assoc. reflexivity.
Qed.

Lemma get_public_url_spec (image_path : pyval) (st : state) :
  get_public_url image_path st = (public_url (now st) image_path, st).
Proof.
  unfold get_public_url, public_url.
  destruct (negb (truthy image_path)); [reflexivity|].
  destruct (quote image_path); reflexivity.
Qed.

Lemma image_loop_spec (query : string) (s : stream) :
  forall results st,
    image_loop query s results st
    = (results ++ omap (image_candidate query (now st)) (yielded s), st).
Proof.
  induction s as [| |d rest IH]; intros results st.
  - simpl. rewrite app_nil_r. reflexivity.
  - simpl. rewrite app_nil_r. reflexivity.
  - cbn [image_loop yielded]. rewrite omap_cons.
    unfold image_candidate at 1.
    destruct (negb (truthy (get d "image_path" (PStr "")))); [apply IH|].
    unfold mbind, M_bind. rewrite get_public_url_spec.
    destruct (public_url _ _) as [u|]; [|apply IH].
    destruct (negb (truthy (PStr u))); [apply IH|].
    rewrite IH.
    destruct (Qgtb _ IMAGE_THRESHOLD); [|reflexivity].
    rewrite <- app_assoc. reflexivity.
Qed.

(** ** The searches in closed form *)

Lemma search_videos_spec (db : database) (query : string) (st : state) :
  search_videos db query st
  = (video_results db query, logged st [Fetch "videos"]).
Proof.
  unfold search_videos, video_results, mbind, M_bind, collection. simpl.
  rewrite videos_loop_spec. destruct (breaks (videos db)); reflexivity.
Qed.

Lemma general_search_spec (db : database) (query : string) (b : bool)
    (st : state) :
  general_search db query b st
  = (best_of (candidate_pool db query (now st) b),
     logged st ([Fetch "pdf_text"; Fetch "pdf_images_new"]
                ++ if b then [] else [Fetch "videos"])).
Proof.
  unfold general_search, candidate_pool, mbind, M_bind, collection. simpl.
  rewrite text_loop_spec, image_loop_spec. simpl.
  destruct b; simpl.
  - unfold mret, M_ret, logged. simpl. rewrite app_nil_r.
    rewrite <- app_assoc. reflexivity.
  - rewrite search_videos_spec. unfold mret, M_ret, logged. simpl.
    rewrite <- !app_assoc. reflexivity.
Qed.

(** A call that returns at once is not retried. *)
Lemma retry_loop_returns {A : Type} (func : M (outcome A)) (a : A)
    (st st' : state) (remaining retries : nat) :
  func st = (Return a, st') ->
  retry_loop func (S remaining) retries st = (Return a, st').
Proof. intros H. simpl. unfold mbind, M_bind. rewrite H. reflexivity. Qed.

(** Outside the forced video branch the search returns the best of the
    pool and is never retried. *)
Lemma search_general_branch (db : database) (query : string) (st : state) :
  is_video_request query = false \/ video_results db query = [] ->
  search_content_with_retry db query st
  = (Return (best_of (candidate_pool db query (now st)
                        (is_video_request query))),
     logged st ((if is_video_request query then [Fetch "videos"] else [])
                ++ [Fetch "pdf_text"; Fetch "pdf_images_new"]
                ++ if is_video_request query then [] else [Fetch "videos"])).
Proof.
  intros H. unfold search_content_with_retry, firestore_retry_decorator.
  apply retry_loop_returns. unfold search_content.
  destruct (is_video_request query) eqn:E.
  - destruct H as [H|H]; [discriminate|].
    unfold mbind, M_bind. rewrite search_videos_spec, H.
    rewrite general_search_spec. unfold mret, M_ret.
    rewrite logged_logged. reflexivity.
  - unfold mbind, M_bind. rewrite general_search_spec. reflexivity.
Qed.

(** The forced video branch, when the logged title can be read. *)
Lemma search_video_branch (db : database) (query : string) (st : state)
    (x : result) (xs : list result) :
  is_video_request query = true ->
  video_results db query = x :: xs ->
  search_content db query st
  = (match title_of (max_from x xs) with
     | Raise e => Raise e
     | Return _ => Return (Some (max_from x xs))
     end, logged st [Fetch "videos"]).
Proof.
  intros E H. unfold search_content. rewrite E.
  unfold mbind, M_bind. rewrite search_videos_spec, H.
  destruct (title_of (max_from x xs)); reflexivity.
Qed.

(** ** The scorer: sign of the score *)






(** ** The scorer: words and substrings *)







Lemma has_word_char_not_empty (s : string) :
  has_word_char s = true -> s <> EmptyString.
Proof. destruct s; simpl; intros H; [discriminate H|discriminate]. Qed.

Lemma lower_empty (s : string) : lower s = EmptyString -> s = EmptyString.
Proof. destruct s; simpl; intros H; [reflexivity|discriminate]. Qed.

Lemma truthy_PStr (s : string) : truthy (PStr s) = true <-> s <> EmptyString.
Proof.
  simpl. destruct (String.eqb_spec s EmptyString); simpl; split; intros H;
    congruence.
Qed.



(** ** The scorer against its formula *)

Lemma startswith_spec (p : string) :
  forall s, startswith s p = true <-> exists post, s = p +:+ post.
Proof.
  induction p as [|a p IH]; intros s.
  - split; [intros _; exists s; reflexivity|reflexivity].
  - destruct s as [|b s]; simpl.
    + split; [discriminate|intros [post H]; discriminate H].
    + destruct (Ascii.eqb_spec a b) as [->|Hne].
      * rewrite IH. split; intros [post H]; exists post.
        -- rewrite H. reflexivity.
        -- injection H as H. exact H.
      * split; [discriminate|]. intros [post H]. injection H as H _.
        congruence.
Qed.

Lemma str_in_spec (needle hay : string) :
  str_in needle hay = true <-> Substring needle hay.
Proof.
  unfold Substring. induction hay as [|c hay IH]; cbn [str_in].
  - rewrite orb_false_r, startswith_spec. split.
    + intros [post H]. exists EmptyString, post. exact H.
    + intros (pre & post & H). destruct pre; [exists post; exact H|].
      discriminate H.
  - rewrite orb_true_iff, startswith_spec, IH. split.
    + intros [[post H]|(pre & post & H)].
      * exists EmptyString, post. exact H.
      * exists (String c pre), post. rewrite H. reflexivity.
    + intros (pre & post & H). destruct pre as [|c' pre].
      * left. exists post. exact H.
      * right. exists pre, post. simpl in H. injection H as _ H. exact H.
Qed.


















(** ** The scorer and the search on the examples of the specification *)

Example score_end_to_end :
  (calculate_tfidf_score "revenue growth"
     (PStr "The quarterly report shows revenue growth") == 7 # 6)%Q.
Proof. vm_compute. reflexivity. Qed.

Example search_end_to_end :
  fst (search_content_with_retry
         {| pdf_text := Yield report_text Done;
            pdf_images_new := Done;
            videos := Done |} "revenue growth" st0)
  = Return (Some (TextResult
                    (PStr "The quarterly report shows revenue growth")
                    (PStr "report.pdf") (PInt 3)
                    (calculate_tfidf_score "revenue growth"
                       (PStr "The quarterly report shows revenue growth")))).
Proof. vm_compute. reflexivity. Qed.

Example search_empty_pool :
  fst (search_content_with_retry db_tie "xyzzy nonsense" st0) = Return None.
Proof. vm_compute. reflexivity. Qed.

(** A matching video document without a title: the message logged for
    the best video raises [KeyError], each retry raises again, and the
    decorator ends with its bare [raise]; the route answers 503. *)
Example titleless_video_raises :
  let db := {| pdf_text := Done;
               pdf_images_new := Done;
               videos := Yield (<["description" := PStr "play demo video"]> ∅)
                               Done |} in
  search_content_with_retry db "play the demo video" st0
  = (Raise RuntimeError,
     {| now := 1700000014;
        trace := [Fetch "videos"; Sleep 2; Fetch "videos"; Sleep 4;
                  Fetch "videos"; Sleep 8] |})
  /\ status_code
       (fst (webhook db
               {| is_json := true;
                  get_json :=
                    Return (JObj [("text", JStr "play the demo video")]) |}
               st0))
     = 503%Z.
Proof. vm_compute. split; reflexivity. Qed.

(** * The claims about the scorer *)





(** * The claims about the search *)

(** ** The forced video branch *)

Lemma video_candidate_Some (q : string) (d : doc) (r : result) :
  video_candidate q d = Some r <->
  r = VideoResult d (video_score q d)
  /\ (VIDEO_THRESHOLD < video_score q d)%Q.
Proof.
  unfold video_candidate.
  destruct (Qgtb (video_score q d) VIDEO_THRESHOLD) eqn:E.
  - apply Qgtb_true in E. split; [intros [= <-]; auto|].
    intros [-> _]. reflexivity.
  - apply Qgtb_false in E. split; [discriminate|].
    intros [_ H]. exfalso. exact (Qlt_not_le _ _ H E).
Qed.

(** C1, as the claim states it, fails: the forced branch sees only the
    videos [search_videos] kept, and that function applies
    [VIDEO_THRESHOLD]. With one video that shares no word with the query,
    the video request is answered with a text passage. *)
Lemma forced_video_threshold_counterexample :
  is_video_request "play the demo video" = true
  /\ yielded (videos db_unrelated_video) = [pasta_video]
  /\ breaks (videos db_unrelated_video) = false
  /\ fst (search_content_with_retry db_unrelated_video
            "play the demo video" st0)
     = Return (Some (TextResult (PStr "play the demo video")
                       (PStr "manual.pdf") (PInt 7)
                       (calculate_tfidf_score "play the demo video"
                          (PStr "play the demo video")))).
Proof. vm_compute. repeat split; reflexivity. Qed.

(** C1, amended. For a video request, when the video stream does not
    fail, some video scores above [VIDEO_THRESHOLD] and the videos above
    the threshold carry a title, the search returns a video of maximum
    score among all videos, after the video fetch alone: text and
    images are not looked at, whatever they would score. *)
Theorem forced_video_returns_best_video (db : database) (q : string)
    (st : state) :
  is_video_request q = true ->
  breaks (videos db) = false ->
  (exists d, d ∈ yielded (videos db)
             /\ (VIDEO_THRESHOLD < video_score q d)%Q) ->
  (forall d, d ∈ yielded (videos db) ->
             (VIDEO_THRESHOLD < video_score q d)%Q ->
             is_Some (d !! "title")) ->
  exists d : doc,
    search_content_with_retry db q st
    = (Return (Some (VideoResult d (video_score q d))),
       logged st [Fetch "videos"])
    /\ d ∈ yielded (videos db)
    /\ (VIDEO_THRESHOLD < video_score q d)%Q
    /\ (forall d', d' ∈ yielded (videos db) ->
                   (video_score q d' <= video_score q d)%Q).
Proof.
  intros Hq Hbr (d0 & Hd0 & Hs0) Htitle.
  assert (Hres : video_results db q
                 = omap (video_candidate q) (yielded (videos db)))
    by (unfold video_results; rewrite Hbr; reflexivity).
  assert (Hin0 : VideoResult d0 (video_score q d0) ∈ video_results db q).
  { rewrite Hres. apply list_elem_of_omap. exists d0. split; [exact Hd0|].
    apply video_candidate_Some. auto. }
  destruct (video_results db q) as [|x xs] eqn:Hpool.
  { apply elem_of_nil in Hin0. contradiction. }
  pose proof (max_from_first_max x xs) as Hmax.
  pose proof (first_max_elem _ _ Hmax) as Hbest.
  rewrite Hres in Hbest. apply list_elem_of_omap in Hbest as (d & Hd & Hc).
  apply video_candidate_Some in Hc as [Hc Hs].
  exists d. split; [|split; [exact Hd|split; [exact Hs|]]].
  - unfold search_content_with_retry, firestore_retry_decorator.
    apply retry_loop_returns.
    rewrite (search_video_branch db q st x xs Hq Hpool), Hc.
    simpl. destruct (Htitle d Hd Hs) as [v ->]. reflexivity.
  - intros d' Hd'.
    destruct (Qlt_le_dec VIDEO_THRESHOLD (video_score q d')) as [Hgt|Hle].
    + assert (Hin : VideoResult d' (video_score q d') ∈ x :: xs).
      { rewrite Hres. apply list_elem_of_omap. exists d'.
        split; [exact Hd'|]. apply video_candidate_Some. auto. }
      pose proof (first_max_upper _ _ Hmax _ Hin) as Hle.
      rewrite Hc in Hle. exact Hle.
    + apply Qlt_le_weak. eapply Qle_lt_trans; [exact Hle|exact Hs].
Qed.

Lemma forced_video_returns_best_video_witness :
  exists d : doc,
    search_content_with_retry db_demo "play the demo video" st0
    = (Return (Some (VideoResult d (video_score "play the demo video" d))),
       logged st0 [Fetch "videos"])
    /\ d ∈ yielded (videos db_demo)
    /\ (VIDEO_THRESHOLD < video_score "play the demo video" d)%Q
    /\ (forall d', d' ∈ yielded (videos db_demo) ->
                   (video_score "play the demo video" d'
                    <= video_score "play the demo video" d)%Q).
Proof.
  apply (forced_video_returns_best_video db_demo "play the demo video" st0).
  - reflexivity.
  - reflexivity.
  - exists demo_video. split.
    + simpl. apply list_elem_of_further, list_elem_of_here.
    + vm_compute. reflexivity.
  - intros d Hd _. simpl in Hd.
    apply elem_of_cons in Hd as [->|Hd];
      [eexists; vm_compute; reflexivity|].
    apply list_elem_of_singleton in Hd as ->.
    eexists; vm_compute; reflexivity.
Defined.

(** ** Eligibility and the order of the pool *)






(** In a pool sorted by type, the first maximum has the least rank among
    the candidates that reach its score. *)
Lemma first_max_least_rank (best : result) (pool : list result) :
  StronglySorted by_rank pool ->
  first_max best pool ->
  forall c, c ∈ pool -> (score_of c == score_of best)%Q ->
            (rank (type_of best) <= rank (type_of c))%nat.
Proof.
  intros Hsorted (l1 & l2 & -> & H1 & _) c Hc Heq.
  apply elem_of_app in Hc as [Hc|Hc].
  - exfalso. specialize (H1 c Hc). rewrite Heq in H1.
    exact (Qlt_irrefl _ H1).
  - apply StronglySorted_app_1_r, StronglySorted_inv in Hsorted as [_ Hb].
    apply elem_of_cons in Hc as [->|Hc]; [lia|].
    rewrite Forall_forall in Hb. exact (Hb c Hc).
Qed.

(** ** Video requests without video results *)

Lemma is_video_request_not_empty (q : string) :
  is_video_request q = true -> truthy (PStr q) = true.
Proof. destruct q; [discriminate|reflexivity]. Qed.

(** The route on a JSON request whose query strips to [q], when the
    video search of a video request comes back empty. *)
Lemma webhook_fallthrough (db : database) (req : request) (data : json)
    (s q : string) (st : state) :
  is_json req = true ->
  get_json req = Return data ->
  extract_query data = JStr s ->
  strip s = q ->
  is_video_request q = true ->
  video_results db q = [] ->
  webhook db req st
  = (match best_of (candidate_pool db q (now st) true) with
     | Some r => success_response r q
     | None => error_response "No results found" 404
     end,
     logged st [Fetch "videos"; Fetch "videos"; Fetch "pdf_text";
                Fetch "pdf_images_new"]).
Proof.
  intros Hj Hd Hx Hs Hq Hv. unfold webhook.
  rewrite Hj, Hd, Hx, Hs.
  rewrite (is_video_request_not_empty q Hq), Hq. cbn [negb].
  unfold mbind, M_bind. rewrite search_videos_spec, Hv.
  rewrite (search_general_branch db q _ (or_intror Hv)), Hq.
  rewrite logged_logged. simpl.
  destruct (best_of _); reflexivity.
Qed.



(** ** Failing streams *)






(** ** Images without a usable path *)

Lemma image_candidate_origin (q : string) (t : Z) (d : doc) (r : result) :
  image_candidate q t d = Some r ->
  exists (p u : string) (description source page : pyval) (score : Q),
    d !! "image_path" = Some (PStr p) /\ p <> EmptyString
    /\ public_url t (PStr p) = Some u
    /\ r = ImageResult u description source page score.
Proof.
  unfold image_candidate, get.
  destruct (d !! "image_path") as [v|] eqn:E; simpl default;
    [|discriminate].
  destruct (negb (truthy v)) eqn:Etruthy; [discriminate|].
  destruct (public_url t v) as [u|] eqn:Eurl; [|discriminate].
  destruct (negb (truthy (PStr u))); [discriminate|].
  destruct (Qgtb _ IMAGE_THRESHOLD); [|discriminate].
  intros [= <-].
  destruct v as [|b|z|p];
    try (unfold public_url in Eurl; rewrite Etruthy in Eurl;
         discriminate Eurl).
  exists p, u. do 4 eexists. split; [reflexivity|]. split; [|split].
  - apply truthy_PStr. apply negb_false_iff, Etruthy.
  - exact Eurl.
  - reflexivity.
Qed.

(** C10. An image record whose [image_path] is missing or empty, or for
    which no public URL comes back, is skipped whatever its description:
    the loop goes on with the results it had. Every result the image
    loop adds belongs to a record whose [image_path] is a non-empty
    string. *)
Theorem image_without_url_skipped (q : string) (st : state) :
  (forall (data : doc) (rest : stream) (results : list result),
     data !! "image_path" = None
     \/ data !! "image_path" = Some (PStr EmptyString)
     \/ fst (get_public_url (get data "image_path" (PStr "")) st) = None ->
     image_loop q (Yield data rest) results st
     = image_loop q rest results st)
  /\ (forall (s : stream) (results : list result) (r : result),
        r ∈ fst (image_loop q s results st) ->
        r ∈ results
        \/ exists (data : doc) (p : string),
             data ∈ yielded s
             /\ data !! "image_path" = Some (PStr p)
             /\ p <> EmptyString
             /\ type_of r = image).
Proof.
  split.
  - intros data rest results H. cbn [image_loop]. unfold get in *.
    destruct H as [H|[H|H]]; try (rewrite H; reflexivity).
    destruct (negb (truthy (default (PStr "") (data !! "image_path"))));
      [reflexivity|].
    unfold mbind, M_bind. rewrite get_public_url_spec in H |- *.
    simpl in H. rewrite H. reflexivity.
  - intros s results r. rewrite image_loop_spec. simpl.
    rewrite elem_of_app. intros [H|H]; [left; exact H|right].
    apply list_elem_of_omap in H as (d & Hd & H).
    apply image_candidate_origin
      in H as (p & u & de & so & pa & sc & Hp & Hne & _ & ->).
    exists d, p. auto.
Qed.

Lemma image_without_url_skipped_witness :
  image_loop "cat" (Yield pathless_image Done) [] st0 = ([], st0)
  /\ image_loop "cat" (Yield (image_doc (PInt 5) "cat") Done) [] st0
     = ([], st0).
Proof.
  split.
  - rewrite (proj1 (image_without_url_skipped "cat" st0) pathless_image
               Done []); [reflexivity|].
    left. vm_compute. reflexivity.
  - rewrite (proj1 (image_without_url_skipped "cat" st0)
               (image_doc (PInt 5) "cat") Done []); [reflexivity|].
    right. right. vm_compute. reflexivity.
Defined.

(** ** Rejected requests *)

(** C9. A request whose extracted query is empty after stripping is
    answered with [error_response("Invalid query", 400)] and nothing
    else happens: the clock and the trace of repository calls are as
    before, so no candidate is fetched. Every error payload carries its
    message with [has_image] and [has_video] false. *)
Theorem empty_query_rejected (db : database) (req : request) (data : json)
    (s : string) (st : state) :
  is_json req = true ->
  get_json req = Return data ->
  extract_query data = JStr s ->
  strip s = EmptyString ->
  webhook db req st = (error_response "Invalid query" 400, st)
  /\ trace (snd (webhook db req st)) = trace st
  /\ status_code (error_response "Invalid query" 400) = 400%Z
  /\ forall (message : string) (code : Z),
       at_path ["sessionInfo"; "parameters"; "has_image"]
         (body (error_response message code)) = Some (JBool false)
       /\ at_path ["sessionInfo"; "parameters"; "has_video"]
            (body (error_response message code)) = Some (JBool false)
       /\ at_path ["fulfillmentResponse"; "messages"]
            (body (error_response message code))
          = Some (JArr [text_message ("Error: " +:+ message)]).
Proof.
  intros Hj Hd Hx Hs.
  assert (H : webhook db req st = (error_response "Invalid query" 400, st)).
  { unfold webhook. rewrite Hj, Hd, Hx, Hs. reflexivity. }
  split; [exact H|]. split; [rewrite H; reflexivity|].
  split; [reflexivity|].
  intros message code. repeat split; reflexivity.
Qed.

Lemma empty_query_rejected_witness :
  webhook db_demo blank_request st0
  = (error_response "Invalid query" 400, st0)
  /\ trace (snd (webhook db_demo blank_request st0)) = trace st0
  /\ status_code (error_response "Invalid query" 400) = 400%Z
  /\ forall (message : string) (code : Z),
       at_path ["sessionInfo"; "parameters"; "has_image"]
         (body (error_response message code)) = Some (JBool false)
       /\ at_path ["sessionInfo"; "parameters"; "has_video"]
            (body (error_response message code)) = Some (JBool false)
       /\ at_path ["fulfillmentResponse"; "messages"]
            (body (error_response message code))
          = Some (JArr [text_message ("Error: " +:+ message)]).
Proof.
  apply (empty_query_rejected db_demo blank_request
           (JObj [("sessionInfo",
                   JObj [("parameters", JObj [("query", JStr "   ")])])])
           "   " st0); reflexivity.
Defined.

(** * Further properties of the scorer and the intent test *)

Lemma append_assoc (a b c : string) : (a +:+ b) +:+ c = a +:+ b +:+ c.
Proof.
  induction a as [|x a IH]; [reflexivity|].
  change (String x ((a +:+ b) +:+ c) = String x (a +:+ b +:+ c)).
  rewrite IH. reflexivity.
Qed.

Lemma Substring_trans (a b c : string) :
  Substring a b -> Substring b c -> Substring a c.
Proof.
  intros (p1 & s1 & ->) (p2 & s2 & ->).
  exists (p2 +:+ p1), (s1 +:+ s2). rewrite !append_assoc. reflexivity.
Qed.

(** X1. A query is a video request exactly when its lower-case form
    contains "video", "watch" or "play" anywhere, inside a longer word
    too; the fourth keyword of the list, "show video", adds nothing. *)
Theorem is_video_request_keywords (q : string) :
  is_video_request q = true
  <-> Substring "video" (lower q) \/ Substring "watch" (lower q)
      \/ Substring "play" (lower q).
Proof.
  unfold is_video_request. cbn [existsb].
  rewrite !orb_true_iff, !str_in_spec. split.
  - intros [H|[H|[H|[H|H]]]]; [auto|auto|auto| |discriminate H].
    left. apply (Substring_trans _ "show video"); [|exact H].
    exists "show ", EmptyString. reflexivity.
  - intros [H|[H|H]]; auto.
Qed.

Lemma lower_not_empty (s : string) :
  String.eqb (lower s) EmptyString = String.eqb s EmptyString.
Proof. destruct s; reflexivity. Qed.

(** X2. The score is case-insensitive: it depends on the query and on
    the text only through their lower-case forms. *)
Theorem score_case_insensitive (q q' t t' : string) :
  lower q = lower q' -> lower t = lower t' ->
  calculate_tfidf_score q (PStr t) = calculate_tfidf_score q' (PStr t').
Proof.
  intros Hq Ht. unfold calculate_tfidf_score, truthy.
  rewrite <- (lower_not_empty q), <- (lower_not_empty t),
    <- (lower_not_empty q'), <- (lower_not_empty t'), Hq, Ht.
  reflexivity.
Qed.

Lemma score_case_insensitive_witness :
  calculate_tfidf_score "Revenue GROWTH" (PStr "REVENUE growth, Q3")
  = calculate_tfidf_score "revenue growth" (PStr "Revenue Growth, q3").
Proof.
  apply (score_case_insensitive "Revenue GROWTH" "revenue growth"
           "REVENUE growth, Q3" "Revenue Growth, q3"); reflexivity.
Defined.












(** * Further properties of the retry decorator and the search *)

(** The seconds slept by [remaining] more failures after [retries]. *)
Fixpoint backoff_from (retries remaining : nat) : Z :=
  match remaining with
  | O => 0
  | S remaining' =>
      Z.min (2 ^ Z.of_nat (S retries)) 10 + backoff_from (S retries) remaining'
  end.

Lemma retry_loop_outcome {A : Type} (func : M (outcome A)) (remaining : nat) :
  forall (retries : nat) (st : state),
    (exists (a : A) (st1 : state),
        fst (func st1) = Return a
        /\ fst (retry_loop func remaining retries st) = Return a)
    \/ fst (retry_loop func remaining retries st) = Raise RuntimeError.
Proof.
  induction remaining as [|n IH]; intros retries st; simpl.
  - right. reflexivity.
  - unfold mbind, M_bind. destruct (func st) as [[a|e] st'] eqn:E.
    + left. exists a, st. rewrite E. split; reflexivity.
    + apply IH.
Qed.

(** X4. The retry wrapper never lets the exception of the wrapped call
    through: it returns a value the call returned, or it raises
    [RuntimeError] from its bare [raise]. With [max_retries = 0] the call
    is not made at all. *)
Theorem retry_never_reraises {A : Type} (func : M (outcome A))
    (max_retries : nat) (st : state) :
  ((exists (a : A) (st1 : state),
       fst (func st1) = Return a
       /\ fst (firestore_retry_decorator max_retries func st) = Return a)
   \/ fst (firestore_retry_decorator max_retries func st)
      = Raise RuntimeError)
  /\ firestore_retry_decorator 0 func st = (Raise RuntimeError, st).
Proof.
  split; [apply retry_loop_outcome|reflexivity].
Qed.

Lemma retry_loop_exhausted {A : Type} (func : M (outcome A))
    (remaining : nat) :
  (forall st, exists e st', func st = (Raise e, st') /\ now st' = now st) ->
  forall (retries : nat) (st : state),
    fst (retry_loop func remaining retries st) = Raise RuntimeError
    /\ now (snd (retry_loop func remaining retries st))
       = (now st + backoff_from retries remaining)%Z.
Proof.
  intros Hf. induction remaining as [|n IH]; intros retries st; simpl.
  - split; [reflexivity|lia].
  - unfold mbind, M_bind. destruct (Hf st) as (e & st' & E & Hnow).
    rewrite E. simpl. destruct (IH (S retries)
      {| now := now st' + Z.min (2 ^ Z.of_nat (S retries)) 10;
         trace := trace st' ++ [Sleep (Z.min (2 ^ Z.of_nat (S retries)) 10)] |})
      as [H1 H2].
    split; [exact H1|]. rewrite H2. simpl. lia.
Qed.

Lemma backoff_from_late (remaining : nat) :
  forall retries, (3 <= retries)%nat ->
                  backoff_from retries remaining = (10 * Z.of_nat remaining)%Z.
Proof.
  induction remaining as [|n IH]; intros retries H; [reflexivity|].
  cbn [backoff_from]. rewrite (IH (S retries)) by lia.
  assert (H16 : (2 ^ 4 <= 2 ^ Z.of_nat (S retries))%Z)
    by (apply Z.pow_le_mono_r; lia).
  change (2 ^ 4)%Z with 16%Z in H16. lia.
Qed.

Lemma backoff_closed_form (n : nat) :
  backoff_from 0 n
  = if (n <=? 3)%nat then (2 ^ Z.of_nat (S n) - 2)%Z
    else (10 * Z.of_nat n - 16)%Z.
Proof.
  destruct n as [|[|[|[|n]]]]; try reflexivity.
  cbn [backoff_from]. rewrite backoff_from_late by lia.
  change (S (S (S (S n))) <=? 3)%nat with false. cbv iota.
  change (Z.min (2 ^ Z.of_nat 1) 10) with 2%Z.
  change (Z.min (2 ^ Z.of_nat 2) 10) with 4%Z.
  change (Z.min (2 ^ Z.of_nat 3) 10) with 8%Z.
  assert (H16 : (2 ^ 4 <= 2 ^ Z.of_nat 4)%Z) by (apply Z.pow_le_mono_r; lia).
  change (Z.min (2 ^ Z.of_nat 4) 10) with 10%Z. lia.
Qed.

(** X5. When the wrapped call raises every time and leaves the clock
    alone, the wrapper gives up with [RuntimeError] after sleeping once
    per failure, the last failure included: [min(2^k, 10)] seconds after
    the k-th, so 2, 6 and 14 seconds in all for one, two and three
    retries, and ten more for each further one. *)
Theorem retry_exhausted_backoff {A : Type} (func : M (outcome A))
    (max_retries : nat) (st : state) :
  (forall st, exists e st', func st = (Raise e, st') /\ now st' = now st) ->
  fst (firestore_retry_decorator max_retries func st) = Raise RuntimeError
  /\ now (snd (firestore_retry_decorator max_retries func st))
     = (now st
        + if (max_retries <=? 3)%nat
          then 2 ^ Z.of_nat (S max_retries) - 2
          else 10 * Z.of_nat max_retries - 16)%Z.
Proof.
  intros Hf. unfold firestore_retry_decorator.
  rewrite <- backoff_closed_form. apply retry_loop_exhausted, Hf.
Qed.

(** A call that raises at once, whatever the state. *)
Definition always_failing : M (outcome unit) :=
  fun st => (Raise (KeyError "title"), st).

Lemma retry_exhausted_backoff_witness :
  fst (firestore_retry_decorator 5 always_failing st0) = Raise RuntimeError
  /\ now (snd (firestore_retry_decorator 5 always_failing st0))
     = (now st0 + 34)%Z.
Proof.
  apply (retry_exhausted_backoff always_failing 5 st0).
  intros st. exists (KeyError "title"), st. split; reflexivity.
Defined.




(** A repository call that is a fetch, not a sleep. *)
Definition is_fetch (e : event) : Prop := exists c, e = Fetch c.

Lemma fetches_only (cs : list string) : Forall is_fetch (Fetch <$> cs).
Proof.
  induction cs as [|c cs IH]; constructor; [exists c; reflexivity|exact IH].
Qed.





(** * Further properties of the route *)

Lemma logged_nil (st : state) : logged st [] = st.
Proof. destruct st as [n t]. unfold logged. simpl. rewrite app_nil_r. reflexivity. Qed.

Lemma truthy_strip_query (q : string) :
  q <> EmptyString -> negb (truthy (PStr q)) = false.
Proof. intros H. apply negb_false_iff, truthy_PStr, H. Qed.

(** The route on a well-formed request with a query that is no video
    request. *)
Lemma webhook_general (db : database) (req : request) (data : json)
    (s q : string) (st : state) :
  is_json req = true ->
  get_json req = Return data ->
  extract_query data = JStr s ->
  strip s = q ->
  q <> EmptyString ->
  is_video_request q = false ->
  webhook db req st
  = (match best_of (candidate_pool db q (now st) false) with
     | Some r => success_response r q
     | None => error_response "No results found" 404
     end,
     logged st [Fetch "pdf_text"; Fetch "pdf_images_new"; Fetch "videos"]).
Proof.
  intros Hj Hd Hx Hs Hne Hq. unfold webhook.
  rewrite Hj, Hd, Hx, Hs, (truthy_strip_query q Hne), Hq. cbn [negb].
  unfold mbind, M_bind.
  rewrite (search_general_branch db q _ (or_introl Hq)), Hq. simpl.
  destruct (best_of _); reflexivity.
Qed.

(** The route on a video request whose video search finds something. *)
Lemma webhook_forced (db : database) (req : request) (data : json)
    (s q : string) (st : state) (x : result) (xs : list result) :
  is_json req = true ->
  get_json req = Return data ->
  extract_query data = JStr s ->
  strip s = q ->
  is_video_request q = true ->
  video_results db q = x :: xs ->
  webhook db req st
  = (match title_of (max_from x xs) with
     | Return _ => success_response (max_from x xs) q
     | Raise _ => error_response "Service unavailable" 503
     end, logged st [Fetch "videos"]).
Proof.
  intros Hj Hd Hx Hs Hq Hv. unfold webhook.
  rewrite Hj, Hd, Hx, Hs, (is_video_request_not_empty q Hq), Hq. cbn [negb].
  unfold mbind, M_bind. rewrite search_videos_spec, Hv.
  destruct (title_of (max_from x xs)); reflexivity.
Qed.

(** What a response of the route is: an error of one of three statuses,
    or a success. *)
Definition error_or_success (r : response) : Prop :=
  (exists (message : string) (code : Z),
      r = error_response message code
      /\ (code = 400 \/ code = 404 \/ code = 503)%Z)
  \/ (exists (data : result) (query : string), r = success_response data query).

Lemma error_is_error (message : string) (code : Z) :
  (code = 400 \/ code = 404 \/ code = 503)%Z ->
  error_or_success (error_response message code).
Proof. intros H. left. exists message, code. auto. Qed.

Lemma webhook_form (db : database) (req : request) (st : state) :
  exists evs : list event,
    snd (webhook db req st) = logged st evs
    /\ Forall is_fetch evs
    /\ (length evs <= 4)%nat
    /\ error_or_success (fst (webhook db req st)).
Proof.
  assert (Hstay : forall (m : string) (c : Z),
             (c = 400 \/ c = 404 \/ c = 503)%Z ->
             exists evs : list event,
               snd (error_response m c, st) = logged st evs
               /\ Forall is_fetch evs /\ (length evs <= 4)%nat
               /\ error_or_success (fst (error_response m c, st))).
  { intros m c Hc. exists []. rewrite logged_nil.
    split; [reflexivity|]. split; [constructor|]. split; [simpl; lia|].
    apply error_is_error, Hc. }
  destruct (is_json req) eqn:Hj;
    [|unfold webhook; rewrite Hj; apply Hstay; auto].
  destruct (get_json req) as [data|e] eqn:Hd;
    [|unfold webhook; rewrite Hj, Hd; apply Hstay; auto].
  destruct (extract_query data) as [| | |s| |] eqn:Hx;
    try (unfold webhook; rewrite Hj, Hd, Hx; apply Hstay; auto).
  destruct (String.eqb_spec (strip s) EmptyString) as [He|Hne].
  { unfold webhook. rewrite Hj, Hd, Hx, He. apply Hstay. auto. }
  destruct (is_video_request (strip s)) eqn:Hq.
  - destruct (video_results db (strip s)) as [|x xs] eqn:Hv.
    + rewrite (webhook_fallthrough db req data s _ st Hj Hd Hx eq_refl Hq Hv).
      eexists. split; [reflexivity|].
      split; [exact (fetches_only ["videos"; "videos"; "pdf_text";
                                   "pdf_images_new"])|].
      split; [simpl; lia|]. simpl.
      destruct (best_of _) as [r|];
        [right; eauto|apply error_is_error; auto].
    + rewrite (webhook_forced db req data s _ st x xs Hj Hd Hx eq_refl Hq Hv).
      eexists. split; [reflexivity|].
      split; [exact (fetches_only ["videos"])|].
      split; [simpl; lia|]. simpl.
      destruct (title_of _);
        [right; eauto|apply error_is_error; auto].
  - rewrite (webhook_general db req data s _ st Hj Hd Hx eq_refl Hne Hq).
    eexists. split; [reflexivity|].
    split; [exact (fetches_only ["pdf_text"; "pdf_images_new"; "videos"])|].
    split; [simpl; lia|]. simpl.
    destruct (best_of _) as [r|];
      [right; eauto|apply error_is_error; auto].
Qed.

(** X7. Through the route no request is ever retried: whatever the
    request and the repository, the clock is untouched and the route
    makes at most four repository calls, all of them fetches, never a
    sleep. *)
Theorem route_never_sleeps (db : database) (req : request) (st : state) :
  exists evs : list event,
    snd (webhook db req st) = logged st evs
    /\ Forall is_fetch evs
    /\ (length evs <= 4)%nat.
Proof.
  destruct (webhook_form db req st) as (evs & H1 & H2 & H3 & _).
  exists evs. auto.
Qed.

(** X8. Every answer of the route has status 200, 400, 404 or 503 and
    carries both flags: they are never both true, and both are false
    unless the status is 200. *)
Theorem route_flags (db : database) (req : request) (st : state) :
  let r := fst (webhook db req st) in
  (status_code r = 200 \/ status_code r = 400 \/ status_code r = 404
   \/ status_code r = 503)%Z
  /\ exists has_image has_video : bool,
       at_path ["sessionInfo"; "parameters"; "has_image"] (body r)
       = Some (JBool has_image)
       /\ at_path ["sessionInfo"; "parameters"; "has_video"] (body r)
          = Some (JBool has_video)
       /\ has_image && has_video = false
       /\ (status_code r <> 200%Z -> has_image = false /\ has_video = false).
Proof.
  cbv zeta.
  destruct (webhook_form db req st)
    as (_ & _ & _ & _ & [(m & c & -> & Hc)|(d & q & ->)]).
  - split; [simpl; tauto|]. exists false, false.
    repeat split; reflexivity.
  - split; [left; destruct d; reflexivity|].
    destruct d as [c so p sc|u de so p sc|v sc].
    + exists false, false.
      split; [reflexivity|split; [reflexivity|split; [reflexivity|]]].
      intros H; exfalso; apply H; reflexivity.
    + exists true, false.
      split; [reflexivity|split; [reflexivity|split; [reflexivity|]]].
      intros H; exfalso; apply H; reflexivity.
    + exists false, true.
      split; [reflexivity|split; [reflexivity|split; [reflexivity|]]].
      intros H; exfalso; apply H; reflexivity.
Qed.








(** * Further properties of the query extraction *)

(** The value of [fulfillmentInfo] lets the tag be read: the member is
    absent, or it is an object. *)
Definition tag_readable (members : list (string * json)) : Prop :=
  member "fulfillmentInfo" members = None
  \/ exists info, member "fulfillmentInfo" members = Some (JObj info).

Lemma py_in_member (key : string) (members : list (string * json))
    (v : json) :
  member key members = Some v -> py_in key (JObj members) = Return true.
Proof.
  intros H. cbn [py_in]. rewrite H. reflexivity.
Qed.

Lemma py_in_no_member (key : string) (members : list (string * json)) :
  member key members = None -> py_in key (JObj members) = Return false.
Proof.
  intros H. cbn [py_in]. rewrite H. reflexivity.
Qed.

Lemma py_item_member (key : string) (members : list (string * json))
    (v : json) :
  member key members = Some v -> py_item (JObj members) key = Return v.
Proof. intros H. cbn [py_item]. rewrite H. reflexivity. Qed.

Lemma extract_query_body_object (members : list (string * json)) :
  tag_readable members ->
  extract_query_body (JObj members)
  = (c1 ← py_and (py_in "sessionInfo" (JObj members))
               (si ← py_item (JObj members) "sessionInfo";
                py_in "parameters" si);
     if c1 : bool then
       si ← py_item (JObj members) "sessionInfo";
       params ← py_item si "parameters";
       py_get params "query" (JStr "")
     else
       c2 ← py_in "text" (JObj members);
       if c2 : bool then py_item (JObj members) "text"
       else
         c3 ← py_and (py_in "payload" (JObj members))
                     (p ← py_item (JObj members) "payload";
                      py_in "queryText" p);
         if c3 : bool then
           p ← py_item (JObj members) "payload";
           py_item p "queryText"
         else mret (JStr "")).
Proof.
  intros [H|[info H]]; unfold extract_query_body;
    cbn [py_get mbind outcome_bind]; rewrite H; reflexivity.
Qed.

(** X11. The query is read from [sessionInfo.parameters.query] before
    [text], and from [text] before [payload.queryText]. When
    [sessionInfo.parameters] is an object without a [query] member the
    query is the empty string, whatever [text] holds. *)
Theorem extract_query_precedence (members : list (string * json)) :
  tag_readable members ->
  (forall si ps,
     member "sessionInfo" members = Some (JObj si) ->
     member "parameters" si = Some (JObj ps) ->
     extract_query (JObj members) = default (JStr "") (member "query" ps))
  /\ (forall v,
        member "sessionInfo" members = None ->
        member "text" members = Some v ->
        extract_query (JObj members) = v)
  /\ (forall p v,
        member "sessionInfo" members = None ->
        member "text" members = None ->
        member "payload" members = Some (JObj p) ->
        member "queryText" p = Some v ->
        extract_query (JObj members) = v)
  /\ (member "sessionInfo" members = None ->
      member "text" members = None ->
      member "payload" members = None ->
      extract_query (JObj members) = JStr "").
Proof.
  intros Htag. unfold extract_query.
  rewrite (extract_query_body_object members Htag).
  split; [|split; [|split]].
  - intros si ps Hsi Hps.
    rewrite (py_in_member _ _ _ Hsi), (py_item_member _ _ _ Hsi).
    cbn [py_and mbind outcome_bind].
    rewrite (py_in_member _ _ _ Hps), (py_item_member _ _ _ Hps).
    reflexivity.
  - intros v Hsi Ht.
    rewrite (py_in_no_member _ _ Hsi), (py_in_member _ _ _ Ht),
      (py_item_member _ _ _ Ht).
    reflexivity.
  - intros p v Hsi Ht Hp Hv.
    rewrite (py_in_no_member _ _ Hsi), (py_in_no_member _ _ Ht),
      (py_in_member _ _ _ Hp), (py_item_member _ _ _ Hp).
    cbn [py_and mbind outcome_bind].
    rewrite (py_in_member _ _ _ Hv), (py_item_member _ _ _ Hv).
    reflexivity.
  - intros Hsi Ht Hp.
    rewrite (py_in_no_member _ _ Hsi), (py_in_no_member _ _ Ht),
      (py_in_no_member _ _ Hp).
    reflexivity.
Qed.

(** A session without a query next to a text that holds one. *)
Definition session_without_query : list (string * json) :=
  [("sessionInfo", JObj [("parameters", JObj [("lang", JStr "en")])]);
   ("text", JStr "revenue growth")].

Lemma extract_query_precedence_witness :
  extract_query (JObj session_without_query) = JStr "".
Proof.
  apply (proj1 (extract_query_precedence session_without_query
                  (or_introl eq_refl))
           [("parameters", JObj [("lang", JStr "en")])]
           [("lang", JStr "en")]); reflexivity.
Defined.

(** X12. A JSON body that is not an object, or whose [fulfillmentInfo]
    is not an object, makes the reading of the tag raise inside the
    [try]: the query stays empty and the request is rejected as
    "Invalid query" with status 400, whatever query the body holds. A
    query that is not a string is answered with status 503. Neither
    touches the repository. *)
Theorem malformed_body_rejected (db : database) (req : request)
    (data : json) (st : state) :
  is_json req = true ->
  get_json req = Return data ->
  ((forall members, data <> JObj members)
   \/ (exists members v,
         data = JObj members
         /\ member "fulfillmentInfo" members = Some v
         /\ forall info, v <> JObj info) ->
   webhook db req st = (error_response "Invalid query" 400, st))
  /\ ((forall s, extract_query data <> JStr s) ->
      webhook db req st = (error_response "Service unavailable" 503, st)).
Proof.
  intros Hj Hd. split.
  - intros H.
    assert (Hx : extract_query data = JStr "").
    { unfold extract_query, extract_query_body.
      destruct H as [H|(members & v & -> & Hm & Hv)].
      - destruct data as [| | | | |members]; try reflexivity.
        exfalso. exact (H members eq_refl).
      - cbn [py_get mbind outcome_bind]. rewrite Hm. cbn [default].
        destruct v as [| | | | |info]; try reflexivity.
        exfalso. exact (Hv info eq_refl). }
    unfold webhook. rewrite Hj, Hd, Hx. reflexivity.
  - intros H. unfold webhook. rewrite Hj, Hd.
    destruct (extract_query data) as [| | |s| |]; try reflexivity.
    exfalso. exact (H s eq_refl).
Qed.

(** A body whose [fulfillmentInfo] is a string, with a query in [text]. *)
Definition tagged_request : request :=
  {| is_json := true;
     get_json := Return (JObj [("fulfillmentInfo", JStr "search");
                               ("text", JStr "revenue growth")]) |}.

(** A body whose [text] is a number. *)
Definition numeric_request : request :=
  {| is_json := true;
     get_json := Return (JObj [("text", JNum 42)]) |}.

Lemma malformed_body_rejected_witness :
  webhook db_demo tagged_request st0
  = (error_response "Invalid query" 400, st0)
  /\ webhook db_demo numeric_request st0
     = (error_response "Service unavailable" 503, st0).
Proof.
  split.
  - apply (proj1 (malformed_body_rejected db_demo tagged_request
                    (JObj [("fulfillmentInfo", JStr "search");
                           ("text", JStr "revenue growth")]) st0
                    eq_refl eq_refl)).
    right. exists [("fulfillmentInfo", JStr "search");
                   ("text", JStr "revenue growth")], (JStr "search").
    split; [reflexivity|]. split; [reflexivity|]. discriminate.
  - apply (proj2 (malformed_body_rejected db_demo numeric_request
                    (JObj [("text", JNum 42)]) st0 eq_refl eq_refl)).
    discriminate.
Defined.

(** * Further properties of the public URL *)

(** Every character of [s] passes the test [p]. *)
Fixpoint string_forall (p : ascii -> bool) (s : string) : bool :=
  match s with
  | EmptyString => true
  | String c s' => p c && string_forall p s'
  end.

(** A character [urllib.parse.quote] can put out: an unreserved
    character, the slash, or the percent sign of an escape. *)
Definition quoted_char (c : ascii) : bool :=
  quote_safe (N_of_ascii c) || Ascii.eqb c "%".

(** A character [urllib.parse.quote] leaves alone. *)
Definition plain_char (c : ascii) : bool := quote_safe (N_of_ascii c).

Lemma string_forall_app (p : ascii -> bool) (a b : string) :
  string_forall p (a +:+ b) = string_forall p a && string_forall p b.
Proof.
  induction a as [|c a IH]; [reflexivity|].
  change (p c && string_forall p (a +:+ b)
          = p c && string_forall p a && string_forall p b).
  rewrite IH. apply andb_assoc.
Qed.

Lemma quote_bytes_app (bs : list N) (acc : string) :
  fold_right (fun b acc => quote_byte b +:+ acc) acc bs
  = fold_right (fun b acc => quote_byte b +:+ acc) EmptyString bs +:+ acc.
Proof.
  induction bs as [|b bs IH]; [reflexivity|].
  cbn [fold_right]. rewrite IH, append_assoc. reflexivity.
Qed.

Lemma quote_char_quoted (c : ascii) :
  string_forall quoted_char
    (fold_right (fun b acc => quote_byte b +:+ acc) EmptyString (utf8 c))
  = true.
Proof.
  destruct c as [[] [] [] [] [] [] [] []]; vm_compute; reflexivity.
Qed.

Lemma quote_char_plain (c : ascii) :
  plain_char c = true ->
  fold_right (fun b acc => quote_byte b +:+ acc) EmptyString (utf8 c)
  = String c EmptyString.
Proof.
  destruct c as [[] [] [] [] [] [] [] []]; vm_compute;
    intros H; try reflexivity; discriminate H.
Qed.

Lemma quote_str_quoted (s : string) :
  string_forall quoted_char (quote_str s) = true.
Proof.
  induction s as [|c s IH]; [reflexivity|].
  cbn [quote_str]. rewrite quote_bytes_app, string_forall_app, IH.
  rewrite quote_char_quoted. reflexivity.
Qed.

Lemma quote_str_plain (s : string) :
  string_forall plain_char s = true -> quote_str s = s.
Proof.
  induction s as [|c s IH]; [reflexivity|].
  cbn [string_forall quote_str]. intros H.
  apply andb_true_iff in H as [Hc Hs].
  rewrite quote_bytes_app, (quote_char_plain c Hc), (IH Hs). reflexivity.
Qed.

(** X13. For a path that is a string, [get_public_url] gives no URL
    exactly when the string is empty, as it does for [None]. For a
    non-empty string the URL is the bucket address, the encoded path and
    the clock as [?t=]; the encoded path holds only unreserved
    characters, slashes and percent escapes, so no space and no question
    mark, and it is the path itself when the path holds only such plain
    characters. The clock and the trace are left as they are. *)
Theorem public_url_shape (p : string) (st : state) :
  snd (get_public_url (PStr p) st) = st
  /\ get_public_url PNone st = (None, st)
  /\ (fst (get_public_url (PStr p) st) = None <-> p = EmptyString)
  /\ (p <> EmptyString ->
      fst (get_public_url (PStr p) st)
      = Some ("https://storage.googleapis.com/allpdfs-bucket/"
              +:+ quote_str p +:+ "?t=" +:+ str (PInt (now st)))
      /\ string_forall quoted_char (quote_str p) = true
      /\ (string_forall plain_char p = true -> quote_str p = p)).
Proof.
  rewrite get_public_url_spec. cbn [fst snd].
  split; [reflexivity|]. split; [reflexivity|]. split.
  - unfold public_url. cbn [truthy quote].
    destruct (String.eqb_spec p EmptyString) as [->|Hne]; cbn [negb].
    + split; reflexivity.
    + split; [discriminate|]. intros H. exfalso. exact (Hne H).
  - intros Hne. split; [|split].
    + unfold public_url. rewrite (truthy_strip_query p Hne). reflexivity.
    + apply quote_str_quoted.
    + apply quote_str_plain.
Qed.

Lemma public_url_shape_witness :
  fst (get_public_url (PStr "extracted_images/annual report.pdf_p0_i1.png")
         st0)
  = Some ("https://storage.googleapis.com/allpdfs-bucket/"
          +:+ quote_str "extracted_images/annual report.pdf_p0_i1.png"
          +:+ "?t=" +:+ str (PInt (now st0)))
  /\ string_forall quoted_char
       (quote_str "extracted_images/annual report.pdf_p0_i1.png") = true
  /\ (string_forall plain_char
        "extracted_images/annual report.pdf_p0_i1.png" = true ->
      quote_str "extracted_images/annual report.pdf_p0_i1.png"
      = "extracted_images/annual report.pdf_p0_i1.png").
Proof.
  apply (proj2 (proj2 (proj2 (public_url_shape
                                "extracted_images/annual report.pdf_p0_i1.png"
                                st0)))).
  discriminate.
Defined.

(** * The ingestion pipeline

    The functions of [src/pdf_processor.py]. The cloud services are
    answers handed to the functions: each construction and each call of
    a client either gives its value or raises, and one that raises
    changes nothing. *)

Module Processor.

(** The exceptions of the pipeline; [ProcessingError] is the
    [RuntimeError] that [process_pdf] raises with the message of a failed
    status. *)
Inductive error : Type :=
  | FileNotFoundError
  | ValueError
  | ProcessingError (message : string)
  | IndexError
  | GoogleAPICallError
  | RetryError
  | OtherError.

Inductive attempt (A : Type) : Type :=
  | Ok (a : A)
  | Fail (e : error).
Arguments Ok {A} a.
Arguments Fail {A} e.

#[global] Instance attempt_ret : MRet attempt := fun A a => Ok a.
#[global] Instance attempt_bind : MBind attempt :=
  fun A B k m => match m with Ok a => k a | Fail e => Fail e end.

(** ** More of the Python runtime *)

(** [s.replace(old, new)] for a non-empty [old]: occurrences are taken
    from the left and do not overlap; [skip] counts the characters of a
    taken occurrence still to pass. *)
Fixpoint replace_from (old new : string) (skip : nat) (s : string) : string :=
  match s with
  | EmptyString => EmptyString
  | String c s' =>
      match skip with
      | S k => replace_from old new k s'
      | O =>
          if startswith s old
          then new +:+ replace_from old new (String.length old - 1) s'
          else String c (replace_from old new 0 s')
      end
  end.

Definition replace (old new s : string) : string := replace_from old new 0 s.

(** [s.endswith(suffix)]. *)
Fixpoint endswith (s suffix : string) : bool :=
  String.eqb s suffix
  || match s with
     | EmptyString => false
     | String _ s' => endswith s' suffix
     end.

(** [sep.join(parts)]. *)
Fixpoint join (sep : string) (parts : list string) : string :=
  match parts with
  | [] => EmptyString
  | p :: rest =>
      match rest with
      | [] => p
      | _ => p +:+ sep +:+ join sep rest
      end
  end.

(** [s[start:end]] for two indices that are not negative. *)
Definition slice (s : string) (start stop : nat) : string :=
  String.substring start (stop - start) s.

(** [str(n)] for an [int] that is not negative. *)
Definition dec (n : nat) : string := str (PInt (Z.of_nat n)).

(** The bytes [quote] never escapes. *)
Definition always_safe (b : N) : bool :=
  ((48 <=? b) && (b <=? 57) || (65 <=? b) && (b <=? 90)
   || (97 <=? b) && (b <=? 122)
   || (b =? 95) || (b =? 46) || (b =? 45) || (b =? 126))%N.

Fixpoint has_byte (b : N) (safe : string) : bool :=
  match safe with
  | EmptyString => false
  | String c safe' => (N_of_ascii c =? b)%N || has_byte b safe'
  end.

Definition quote_byte_safe (safe : string) (b : N) : string :=
  if always_safe b || has_byte b safe
  then String (ascii_of_N b) EmptyString else percent b.

(** [urllib.parse.quote(s, safe=safe)] for an ASCII [safe]. *)
Fixpoint quote_safe_str (safe : string) (s : string) : string :=
  match s with
  | EmptyString => EmptyString
  | String c s' =>
      fold_right (fun b acc => quote_byte_safe safe b +:+ acc)
                 (quote_safe_str safe s') (utf8 c)
  end.

(** ** [get_blob] *)

(** The spellings [get_blob] tries, in order. *)
Definition attempts (file_name : string) : list string :=
  [file_name;
   quote_safe_str "()" file_name;
   replace " " "_" file_name;
   replace " " "%20" file_name].

(** The loop of [get_blob]: [blob_exists name] is
    [bucket.blob(name).exists()]. *)
Fixpoint get_blob_loop (blob_exists : string -> attempt bool)
    (names : list string) : attempt (option string) :=
  match names with
  | [] => Ok None
  | attempt_name :: rest =>
      found ← blob_exists attempt_name;
      if found : bool then Ok (Some attempt_name)
      else get_blob_loop blob_exists rest
  end.

(** [get_blob(bucket, file_name)]; the blob is known by its name. *)
Definition get_blob (blob_exists : string -> attempt bool)
    (file_name : string) : attempt string :=
  found ← get_blob_loop blob_exists (attempts file_name);
  match found with
  | Some name => Ok name
  | None => Fail FileNotFoundError
  end.

(** ** [analyze_image_with_vision] *)

(** The annotations of a Vision response that the function reads: the
    descriptions of the labels, the names of the objects and the
    descriptions of the texts. *)
Record vision_response : Type := {
  label_annotations : list string;
  localized_object_annotations : list string;
  text_annotations : list string
}.

(** The part of [analyze_image_with_vision] after the call. *)
Definition describe (response : vision_response) : option string :=
  let description_parts : list string := [] in
  let description_parts :=
    match label_annotations response with
    | [] => description_parts
    | _ =>
        let labels := take 5 (label_annotations response) in
        description_parts ++ ["Contains: " +:+ join ", " labels]
    end in
  let description_parts :=
    match localized_object_annotations response with
    | [] => description_parts
    | _ =>
        let objects := take 3 (localized_object_annotations response) in
        match objects with
        | [] => description_parts
        | _ => description_parts ++ ["Objects: " +:+ join ", " objects]
        end
    end in
  let description_parts :=
    match text_annotations response with
    | [] => description_parts
    | first :: _ =>
        let text := slice (replace nl " " first) 0 100 in
        match text with
        | EmptyString => description_parts
        | _ => description_parts ++ ["Text: " +:+ text]
        end
    end in
  match description_parts with
  | [] => None
  | _ => Some (join " | " description_parts)
  end.

(** [analyze_image_with_vision(image_content)], [annotate_image] being
    what comes before the description is built: the construction of the
    Vision client, of the image and of the features, and the call. *)
Definition analyze_image_with_vision
    (annotate_image : string -> attempt vision_response)
    (image_content : string) : attempt (option string) :=
  response ← annotate_image image_content;
  Ok (describe response).

(** ** Stored documents and the services *)

(** The values of the dictionaries handed to Firestore. *)
#[local] Set Warnings "-register-all".
Inductive value : Type :=
  | VNone
  | VStr (s : string)
  | VInt (z : Z)
  | VFloat (q : Q)
  | VDict (items : list (string * value))
  | SERVER_TIMESTAMP.

(** A dictionary literal, its keys in the order written. *)
Definition record : Type := list (string * value).

(** [r[key]] for a key the literal holds. *)
Fixpoint field (key : string) (r : record) : option value :=
  match r with
  | [] => None
  | (k, v) :: r' => if String.eqb k key then Some v else field key r'
  end.

(** What [doc.extract_image(xref)] returns. *)
Record base_image : Type := {
  image_bytes : string;
  ext : string;
  width : Z;
  height : Z
}.

(** A page of an opened PDF: what [load_page] and [get_images] give, an
    image being what [extract_image] gives for its xref. *)
Definition pdf_page : Type := attempt (list (attempt base_image)).

(** A page of a Document AI document: the segments of its text anchor
    and its dimension. *)
Record doc_page : Type := {
  text_segments : list (nat * nat);
  dimension : Q * Q
}.

Record document : Type := {
  doc_text : string;
  doc_pages : list doc_page
}.

(** A blob listed under [processed/]: its name and what downloading and
    parsing it gives. *)
Record output_blob : Type := {
  blob_name : string;
  from_json : attempt document
}.

(** The answers of the services. The first four are the constructors
    both functions call before their [try]:
    [documentai.DocumentProcessorServiceClient()], [storage.Client()],
    [firestore.Client()] and [storage_client.bucket(bucket_name)]; each
    can raise, for missing credentials or a name the library refuses. *)
Record services : Type := {
  docai_client : attempt unit;
  storage_client : attempt unit;
  firestore_client : attempt unit;
  bucket : string -> attempt unit;
  PROCESSOR_ID : option string;
  bucket_exists : attempt bool;
  blob_exists : string -> attempt bool;
  batch_process : string -> attempt (list (Z * string));
  list_blobs : string -> attempt (list output_blob);
  add_text : record -> attempt unit;
  open_pdf : string -> attempt (list pdf_page);
  annotate_image : string -> attempt vision_response;
  upload_from_string : string -> string -> string -> attempt unit;
  add_image : record -> attempt unit;
  write_file : string -> string -> attempt unit
}.

Definition opt_str (v : option string) : value :=
  match v with
  | Some s => VStr s
  | None => VNone
  end.

(** ** [process_pdf] *)

(** The loop over the pages of one output shard: [total_pages] and the
    records added so far go in and come out; the first component tells
    whether the loop raised. *)
Fixpoint pages_loop (svc : services) (file_name : string) (text : string)
    (pages : list doc_page) (total_pages : nat) (added : list record)
    : attempt nat * list record :=
  match pages with
  | [] => (Ok total_pages, added)
  | page :: rest =>
      let total_pages := S total_pages in
      match text_segments page with
      | [] => (Fail IndexError, added)
      | (start_index, end_index) :: _ =>
          let text_content := slice text start_index end_index in
          let data : record :=
            [("source_file", VStr file_name);
             ("page", VInt (Z.of_nat total_pages));
             ("content", VStr text_content);
             ("dimensions",
              VDict [("width", VFloat (fst (dimension page)));
                     ("height", VFloat (snd (dimension page)))]);
             ("processor", opt_str (PROCESSOR_ID svc));
             ("timestamp", SERVER_TIMESTAMP)] in
          match add_text svc data with
          | Fail e => (Fail e, added)
          | Ok _ => pages_loop svc file_name text rest total_pages
                      (added ++ [data])
          end
      end
  end.

(** The loop over the blobs listed under [processed/]. *)
Fixpoint shards_loop (svc : services) (file_name base_name : string)
    (output_blobs : list output_blob) (total_pages : nat)
    (added : list record) : attempt nat * list record :=
  match output_blobs with
  | [] => (Ok total_pages, added)
  | blob :: rest =>
      if negb (endswith (blob_name blob) ".json")
         || negb (str_in base_name (blob_name blob))
      then shards_loop svc file_name base_name rest total_pages added
      else
        match from_json blob with
        | Fail e => (Fail e, added)
        | Ok doc =>
            match pages_loop svc file_name (doc_text doc) (doc_pages doc)
                    total_pages added with
            | (Fail e, added) => (Fail e, added)
            | (Ok total_pages, added) =>
                shards_loop svc file_name base_name rest total_pages added
            end
        end
  end.

(** The statuses of the batch: the first code that is not 0 raises. *)
Fixpoint check_statuses (statuses : list (Z * string)) : attempt unit :=
  match statuses with
  | [] => Ok tt
  | (code, message) :: rest =>
      if negb (code =? 0)%Z
      then Fail (ProcessingError ("Document AI Error: " +:+ message))
      else check_statuses rest
  end.

(** The [try] block of [process_pdf]. *)
Definition process_pdf_body (svc : services) (bucket_name file_name : string)
    : attempt nat * list record :=
  match get_blob (blob_exists svc) file_name with
  | Fail e => (Fail e, [])
  | Ok blob =>
      match batch_process svc ("gs://" +:+ bucket_name +:+ "/" +:+ blob) with
      | Fail e => (Fail e, [])
      | Ok statuses =>
          match check_statuses statuses with
          | Fail e => (Fail e, [])
          | Ok _ =>
              match list_blobs svc "processed/" with
              | Fail e => (Fail e, [])
              | Ok [] => (Fail FileNotFoundError, [])
              | Ok output_blobs =>
                  let base_name := replace ".pdf" "" file_name in
                  shards_loop svc file_name base_name output_blobs 0 []
              end
          end
      end
  end.

(** The clients and the bucket handle [process_pdf] builds before its
    [try], in the order of the source. *)
Definition process_pdf_clients (svc : services) (bucket_name : string)
    : attempt unit :=
  _ ← docai_client svc;
  _ ← storage_client svc;
  _ ← firestore_client svc;
  bucket svc bucket_name.

(** [process_pdf(bucket_name, file_name)]: what it returns or raises,
    and the records it added to [pdf_text]. *)
Definition process_pdf (svc : services) (bucket_name file_name : string)
    : attempt bool * list record :=
  match process_pdf_clients svc bucket_name with
  | Fail e => (Fail e, [])
  | Ok _ =>
      match bucket_exists svc with
      | Fail e => (Fail e, [])
      | Ok false => (Fail ValueError, [])
      | Ok true =>
          match process_pdf_body svc bucket_name file_name with
          | (Ok _, added) => (Ok true, added)
          | (Fail _, added) => (Ok false, added)
          end
      end
  end.

(** ** [extract_images] *)

(** What an extraction has done so far: the blobs uploaded (name,
    content, content type), the records added to [pdf_images_new] and
    the counter of the function. *)
Record ingest : Type := {
  uploaded : list (string * string * string);
  added_images : list record;
  image_count : nat
}.

Definition nothing : ingest :=
  {| uploaded := []; added_images := []; image_count := 0 |}.

(** The body of the inner [try] for one image; an exception leaves what
    was done before it. *)
Definition process_image (svc : services) (bucket_name file_name : string)
    (page_num img_index : nat) (img : attempt base_image) (st : ingest)
    : ingest :=
  match img with
  | Fail _ => st
  | Ok base_image =>
      let image_content := image_bytes base_image in
      match analyze_image_with_vision (annotate_image svc) image_content with
      | Fail _ => st
      | Ok vision_description =>
          let description :=
            match vision_description with
            | Some (String c d) => String c d
            | _ => "Image from " +:+ file_name +:+ " on page "
                   +:+ dec (page_num + 1)
            end in
          let image_ext := ext base_image in
          let image_name :=
            file_name +:+ "_p" +:+ dec page_num +:+ "_i" +:+ dec img_index
            +:+ "." +:+ image_ext in
          let image_blob := "extracted_images/" +:+ image_name in
          match upload_from_string svc image_blob image_content
                  ("image/" +:+ image_ext) with
          | Fail _ => st
          | Ok _ =>
              let st :=
                {| uploaded :=
                     uploaded st
                     ++ [(image_blob, image_content, "image/" +:+ image_ext)];
                   added_images := added_images st;
                   image_count := image_count st |} in
              let public_url :=
                "https://storage.googleapis.com/" +:+ bucket_name +:+ "/"
                +:+ image_blob in
              let data : record :=
                [("source_file", VStr file_name);
                 ("page", VInt (Z.of_nat (page_num + 1)));
                 ("image_index", VInt (Z.of_nat img_index));
                 ("image_path", VStr image_blob);
                 ("public_url", VStr public_url);
                 ("description", VStr description);
                 ("dimensions",
                  VDict [("width", VInt (width base_image));
                         ("height", VInt (height base_image))]);
                 ("format", VStr image_ext);
                 ("timestamp", SERVER_TIMESTAMP)] in
              match add_image svc data with
              | Fail _ => st
              | Ok _ =>
                  {| uploaded := uploaded st;
                     added_images := added_images st ++ [data];
                     image_count := S (image_count st) |}
              end
          end
      end
  end.

(** [for img_index, img in enumerate(images)], from [img_index] on. *)
Fixpoint images_loop (svc : services) (bucket_name file_name : string)
    (page_num img_index : nat) (images : list (attempt base_image))
    (st : ingest) : ingest :=
  match images with
  | [] => st
  | img :: rest =>
      images_loop svc bucket_name file_name page_num (S img_index) rest
        (process_image svc bucket_name file_name page_num img_index img st)
  end.

(** [for page_num in range(len(doc))], from [page_num] on; a page that
    cannot be loaded raises out of the loop. *)
Fixpoint doc_loop (svc : services) (bucket_name file_name : string)
    (page_num : nat) (doc : list pdf_page) (st : ingest)
    : attempt unit * ingest :=
  match doc with
  | [] => (Ok tt, st)
  | Fail e :: _ => (Fail e, st)
  | Ok images :: rest =>
      doc_loop svc bucket_name file_name (S page_num) rest
        (images_loop svc bucket_name file_name page_num 0 images st)
  end.

(** The clients and the bucket handle [extract_images] builds before
    its [try]. *)
Definition extract_images_clients (svc : services) (bucket_name : string)
    : attempt unit :=
  _ ← storage_client svc;
  _ ← firestore_client svc;
  bucket svc bucket_name.

(** [extract_images(bucket_name, file_name)]: what it returns or raises,
    and what it has done. *)
Definition extract_images (svc : services) (bucket_name file_name : string)
    : attempt bool * ingest :=
  match extract_images_clients svc bucket_name with
  | Fail e => (Fail e, nothing)
  | Ok _ =>
      match get_blob (blob_exists svc) file_name with
      | Fail _ => (Ok false, nothing)
      | Ok blob =>
          match open_pdf svc blob with
          | Fail _ => (Ok false, nothing)
          | Ok doc =>
              match doc_loop svc bucket_name file_name 0 doc nothing with
              | (Ok _, st) => (Ok true, st)
              | (Fail _, st) => (Ok false, st)
              end
          end
      end
  end.

(** ** [extract_images_from_pdf] *)







(** ** The command line *)

(** The script run with [--bucket bucket_name --file file_name] and,
    when [extract_images_flag], [--extract-images]: the exception it ends
    with, if any, the records added to [pdf_text] and what the extraction
    did. The services answer [process_pdf] as [svc] and, once that has
    returned, [extract_images] as [svc']: the second function builds its
    own clients, which can fail where the first ones did not. The lines
    the script prints, the elapsed time among them, are left out. *)
Definition main (svc svc' : services) (bucket_name file_name : string)
    (extract_images_flag : bool) : attempt unit * list record * ingest :=
  match process_pdf svc bucket_name file_name with
  | (Fail e, added) => (Fail e, added, nothing)
  | (Ok process_success, added) =>
      if extract_images_flag && process_success
      then
        match extract_images svc' bucket_name file_name with
        | (Fail e, st) => (Fail e, added, st)
        | (Ok extract_success, st) => (Ok tt, added, st)
        end
      else (Ok tt, added, nothing)
  end.

(** ** A sample bucket *)

(** A bucket that holds the names of [stored] and answers every call. *)
Definition bucket_of (stored : list string) (name : string) : attempt bool :=
  Ok (existsb (String.eqb name) stored).

Definition chart_image : base_image :=
  {| image_bytes := "PNG"; ext := "png"; width := 640; height := 480 |}.

Definition scan_image : base_image :=
  {| image_bytes := "TIFF"; ext := "tiff"; width := 100; height := 80 |}.

Definition letter_page (start_index end_index : nat) : doc_page :=
  {| text_segments := [(start_index, end_index)];
     dimension := (612, 792)%Q |}.

Definition report_shards : list output_blob :=
  [{| blob_name := "processed/report-0.json";
      from_json := Ok {| doc_text := "Summary Details";
                         doc_pages := [letter_page 0 7; letter_page 8 15] |} |};
   {| blob_name := "processed/other-0.json";
      from_json := Fail OtherError |};
   {| blob_name := "processed/report-1.json";
      from_json := Ok {| doc_text := "Appendix";
                         doc_pages := [letter_page 0 8] |} |}].

(** A bucket holding [report.pdf]: a PDF of two pages, the first with
    three images, of which the Vision call fails on the second and the
    third cannot be extracted; Document AI has left two shards of the
    report, and one of another file, under [processed/]. *)
Definition chart_services : services :=
  {| docai_client := Ok tt;
     storage_client := Ok tt;
     firestore_client := Ok tt;
     bucket := fun _ => Ok tt;
     PROCESSOR_ID := Some "ocr";
     bucket_exists := Ok true;
     blob_exists := bucket_of ["report.pdf"];
     batch_process := fun _ => Ok [(0%Z, EmptyString)];
     list_blobs := fun _ => Ok report_shards;
     add_text := fun _ => Ok tt;
     open_pdf := fun _ =>
       Ok [Ok [Ok chart_image; Ok scan_image; Fail OtherError]; Ok []];
     annotate_image := fun image_content =>
       if String.eqb image_content "PNG"
       then Ok {| label_annotations := ["Chart"];
                  localized_object_annotations := [];
                  text_annotations := [] |}
       else Fail GoogleAPICallError;
     upload_from_string := fun _ _ _ => Ok tt;
     add_image := fun _ => Ok tt;
     write_file := fun _ _ => Ok tt |}.

(** The same services without credentials for the storage client. *)
Definition locked_services : services :=
  {| docai_client := docai_client chart_services;
     storage_client := Fail OtherError;
     firestore_client := firestore_client chart_services;
     bucket := bucket chart_services;
     PROCESSOR_ID := PROCESSOR_ID chart_services;
     bucket_exists := bucket_exists chart_services;
     blob_exists := blob_exists chart_services;
     batch_process := batch_process chart_services;
     list_blobs := list_blobs chart_services;
     add_text := add_text chart_services;
     open_pdf := open_pdf chart_services;
     annotate_image := annotate_image chart_services;
     upload_from_string := upload_from_string chart_services;
     add_image := add_image chart_services;
     write_file := write_file chart_services |}.

Definition chart_record : record :=
  [("source_file", VStr "report.pdf"); ("page", VInt 1);
   ("image_index", VInt 0);
   ("image_path", VStr "extracted_images/report.pdf_p0_i0.png");
   ("public_url",
    VStr ("https://storage.googleapis.com/docs/"
          +:+ "extracted_images/report.pdf_p0_i0.png"));
   ("description", VStr "Contains: Chart");
   ("dimensions", VDict [("width", VInt 640); ("height", VInt 480)]);
   ("format", VStr "png"); ("timestamp", SERVER_TIMESTAMP)].

(** ** Properties of [get_blob] *)

Lemma get_blob_loop_found (blob_exists : string -> attempt bool)
    (names : list string) (name : string) :
  get_blob_loop blob_exists names = Ok (Some name) ->
  name ∈ names /\ blob_exists name = Ok true.
Proof.
  induction names as [|n names IH]; cbn [get_blob_loop]; [discriminate|].
  unfold mbind, attempt_bind. destruct (blob_exists n) as [[]|e] eqn:E.
  - intros [= <-]. split; [apply list_elem_of_here|exact E].
  - intros H. destruct (IH H) as [H1 H2].
    split; [apply list_elem_of_further, H1|exact H2].
  - discriminate.
Qed.

Lemma get_blob_loop_none (blob_exists : string -> attempt bool)
    (names : list string) :
  (forall name, name ∈ names -> blob_exists name = Ok false) ->
  get_blob_loop blob_exists names = Ok None.
Proof.
  induction names as [|n names IH]; intros H; cbn [get_blob_loop];
    [reflexivity|].
  unfold mbind, attempt_bind. rewrite (H n (list_elem_of_here _ _)).
  apply IH. intros name Hn. apply H, list_elem_of_further, Hn.
Qed.

(** X14. [get_blob] returns the file under its own name when that
    exists; whatever it returns is one of the four spellings and exists
    in the bucket; and it raises [FileNotFoundError] when none of the
    four exists. *)
Theorem get_blob_finds_a_spelling (blob_exists : string -> attempt bool)
    (file_name : string) :
  (blob_exists file_name = Ok true ->
   get_blob blob_exists file_name = Ok file_name)
  /\ (forall name,
        get_blob blob_exists file_name = Ok name ->
        name ∈ attempts file_name /\ blob_exists name = Ok true)
  /\ ((forall name, name ∈ attempts file_name ->
                    blob_exists name = Ok false) ->
      get_blob blob_exists file_name = Fail FileNotFoundError).
Proof.
  unfold get_blob, mbind, attempt_bind. split; [|split].
  - intros H. unfold attempts. cbn [get_blob_loop].
    unfold mbind, attempt_bind. rewrite H. reflexivity.
  - intros name.
    destruct (get_blob_loop blob_exists (attempts file_name))
      as [[n|]|e] eqn:E; try discriminate.
    intros [= <-]. exact (get_blob_loop_found _ _ _ E).
  - intros H. rewrite (get_blob_loop_none _ _ H). reflexivity.
Qed.

Lemma get_blob_finds_a_spelling_witness :
  get_blob (bucket_of ["annual_report.pdf"]) "annual report.pdf"
  = Ok "annual_report.pdf"
  /\ get_blob (bucket_of ["report.pdf"]) "report.pdf" = Ok "report.pdf"
  /\ get_blob (bucket_of []) "report.pdf" = Fail FileNotFoundError.
Proof.
  split; [reflexivity|]. split.
  - apply (proj1 (get_blob_finds_a_spelling (bucket_of ["report.pdf"])
                    "report.pdf")).
    reflexivity.
  - apply (proj2 (proj2 (get_blob_finds_a_spelling (bucket_of [])
                           "report.pdf"))).
    intros name _. reflexivity.
Defined.

(** A character of a plain file name: unreserved, or a parenthesis. *)
Definition name_char (c : ascii) : bool :=
  always_safe (N_of_ascii c) || Ascii.eqb c "(" || Ascii.eqb c ")".

Definition name_char_or_space (c : ascii) : bool :=
  name_char c || Ascii.eqb c " ".

Lemma replace_space_cons (new : string) (c : ascii) (s : string) :
  replace " " new (String c s)
  = (if Ascii.eqb " " c then new else String c EmptyString)
    +:+ replace " " new s.
Proof.
  unfold replace. cbn [replace_from startswith].
  destruct (Ascii.eqb " " c); reflexivity.
Qed.

Lemma quote_safe_bytes_app (safe : string) (bs : list N) (acc : string) :
  fold_right (fun b acc => quote_byte_safe safe b +:+ acc) acc bs
  = fold_right (fun b acc => quote_byte_safe safe b +:+ acc) EmptyString bs
    +:+ acc.
Proof.
  induction bs as [|b bs IH]; [reflexivity|].
  cbn [fold_right]. rewrite IH, append_assoc. reflexivity.
Qed.

Lemma quote_paren_char (c : ascii) :
  name_char_or_space c = true ->
  fold_right (fun b acc => quote_byte_safe "()" b +:+ acc) EmptyString
    (utf8 c)
  = if Ascii.eqb " " c then "%20" else String c EmptyString.
Proof.
  destruct c as [[] [] [] [] [] [] [] []]; vm_compute;
    intros H; try reflexivity; discriminate H.
Qed.

Lemma name_char_not_space (c : ascii) :
  name_char c = true -> Ascii.eqb " " c = false.
Proof.
  destruct c as [[] [] [] [] [] [] [] []]; vm_compute;
    intros H; try reflexivity; discriminate H.
Qed.

Lemma quote_paren_is_replace (f : string) :
  string_forall name_char_or_space f = true ->
  quote_safe_str "()" f = replace " " "%20" f.
Proof.
  induction f as [|c f IH]; [reflexivity|].
  cbn [string_forall quote_safe_str]. intros H.
  apply andb_true_iff in H as [Hc Hf].
  rewrite quote_safe_bytes_app, (quote_paren_char c Hc), (IH Hf).
  rewrite replace_space_cons. reflexivity.
Qed.

Lemma replace_space_plain (new f : string) :
  string_forall name_char f = true -> replace " " new f = f.
Proof.
  induction f as [|c f IH]; [reflexivity|].
  cbn [string_forall]. intros H. apply andb_true_iff in H as [Hc Hf].
  rewrite replace_space_cons, (name_char_not_space c Hc), (IH Hf).
  reflexivity.
Qed.

Lemma name_char_weaken (f : string) :
  string_forall name_char f = true ->
  string_forall name_char_or_space f = true.
Proof.
  induction f as [|c f IH]; [reflexivity|].
  cbn [string_forall]. intros H. apply andb_true_iff in H as [Hc Hf].
  rewrite (IH Hf). unfold name_char_or_space. rewrite Hc. reflexivity.
Qed.

(** X15. For a file name of unreserved characters, parentheses and
    spaces, the second spelling [get_blob] tries is the fourth one:
    quoting only turns the spaces into [%20]. For a name without spaces
    all four spellings are the name itself, and [get_blob] is a single
    existence test. *)
Theorem attempts_of_plain_names (file_name : string) :
  (string_forall name_char_or_space file_name = true ->
   quote_safe_str "()" file_name = replace " " "%20" file_name)
  /\ (string_forall name_char file_name = true ->
      attempts file_name = [file_name; file_name; file_name; file_name]
      /\ forall blob_exists : string -> attempt bool,
          get_blob blob_exists file_name
          = match blob_exists file_name with
            | Ok true => Ok file_name
            | Ok false => Fail FileNotFoundError
            | Fail e => Fail e
            end).
Proof.
  split; [apply quote_paren_is_replace|]. intros H.
  assert (Ha : attempts file_name
               = [file_name; file_name; file_name; file_name]).
  { unfold attempts.
    rewrite (quote_paren_is_replace _ (name_char_weaken _ H)).
    rewrite !(replace_space_plain _ _ H). reflexivity. }
  split; [exact Ha|]. intros blob_exists. unfold get_blob. rewrite Ha.
  cbn [get_blob_loop]. unfold mbind, attempt_bind.
  destruct (blob_exists file_name) as [[]|e]; reflexivity.
Qed.

Lemma attempts_of_plain_names_witness :
  quote_safe_str "()" "annual report (2).pdf"
  = replace " " "%20" "annual report (2).pdf"
  /\ attempts "report.pdf"
     = ["report.pdf"; "report.pdf"; "report.pdf"; "report.pdf"].
Proof.
  split.
  - apply (proj1 (attempts_of_plain_names "annual report (2).pdf")).
    reflexivity.
  - apply (proj2 (attempts_of_plain_names "report.pdf")). reflexivity.
Defined.

(** ** Properties of [analyze_image_with_vision] *)

Lemma append_not_empty (a b : string) :
  a <> EmptyString -> a +:+ b <> EmptyString.
Proof. destruct a as [|c a]; [congruence|]. intros _. discriminate. Qed.

Lemma join_not_empty (sep p : string) (rest : list string) :
  p <> EmptyString -> join sep (p :: rest) <> EmptyString.
Proof.
  intros H. cbn [join]. destruct rest; [exact H|].
  apply append_not_empty, H.
Qed.

Lemma replace_nl_cons (c : ascii) (s : string) :
  replace nl " " (String c s)
  = String (if Ascii.eqb (ascii_of_N 10) c then " "%char else c)
      (replace nl " " s).
Proof.
  unfold replace, nl. cbn [replace_from startswith].
  destruct (Ascii.eqb (ascii_of_N 10) c); reflexivity.
Qed.

Lemma text_part_empty (first : string) :
  slice (replace nl " " first) 0 100 = EmptyString <-> first = EmptyString.
Proof.
  destruct first as [|c s]; [split; reflexivity|].
  rewrite replace_nl_cons. split; discriminate.
Qed.

(** X16. The description built from a Vision response is missing exactly
    when the response has no label, no object and no text (or an empty
    first text); a description that is built is never the empty
    string. *)
Theorem describe_none_or_not_empty (response : vision_response) :
  (describe response = None
   <-> label_annotations response = []
       /\ localized_object_annotations response = []
       /\ forall first rest,
            text_annotations response = first :: rest ->
            first = EmptyString)
  /\ (forall d, describe response = Some d -> d <> EmptyString).
Proof.
  destruct response as [ls os ts]. unfold describe.
  cbn [label_annotations localized_object_annotations text_annotations].
  assert (Hc : forall x, "Contains: " +:+ x <> EmptyString) by discriminate.
  assert (Ho : forall x, "Objects: " +:+ x <> EmptyString) by discriminate.
  assert (Ht : forall x, "Text: " +:+ x <> EmptyString) by discriminate.
  destruct ls as [|l ls].
  - destruct os as [|o os].
    + destruct ts as [|t ts].
      * split; [|discriminate].
        split; [intros _; repeat split; discriminate|reflexivity].
      * destruct (slice (replace nl " " t) 0 100) as [|c s] eqn:E.
        -- apply text_part_empty in E as ->. split; [|discriminate].
           split; [|reflexivity]. intros _. repeat split.
           intros first rest [= <- _]. reflexivity.
        -- split.
           ++ split; [discriminate|]. intros (_ & _ & H).
              specialize (H t ts eq_refl). apply text_part_empty in H.
              rewrite H in E. discriminate E.
           ++ intros d [= <-]. apply Ht.
    + split; [split; [|intros (_ & H & _); discriminate H]|].
      * destruct ts as [|t ts]; [discriminate|].
        destruct (slice _ 0 100); discriminate.
      * intros d. destruct ts as [|t ts];
          [|destruct (slice _ 0 100)]; intros [= <-];
          first [apply Ho|apply join_not_empty, Ho
                |apply append_not_empty, Ho].
  - split; [split; [|intros (H & _); discriminate H]|].
    + destruct os as [|o os]; (destruct ts as [|t ts];
        [discriminate|destruct (slice _ 0 100); discriminate]).
    + intros d. destruct os as [|o os]; (destruct ts as [|t ts];
        [|destruct (slice _ 0 100)]); intros [= <-];
        first [apply Hc|apply join_not_empty, Hc
              |apply append_not_empty, Hc].
Qed.

(** The response cut down to what [describe] reads. *)
Definition truncated (response : vision_response) : vision_response :=
  {| label_annotations := take 5 (label_annotations response);
     localized_object_annotations :=
       take 3 (localized_object_annotations response);
     text_annotations := take 1 (text_annotations response) |}.

Definition not_newline (c : ascii) : bool :=
  negb (Ascii.eqb (ascii_of_N 10) c).

Lemma replace_nl_length (s : string) :
  String.length (replace nl " " s) = String.length s.
Proof.
  induction s as [|c s IH]; [reflexivity|].
  rewrite replace_nl_cons. cbn [String.length]. rewrite IH. reflexivity.
Qed.

Lemma replace_nl_clean (s : string) :
  string_forall not_newline (replace nl " " s) = true.
Proof.
  induction s as [|c s IH]; [reflexivity|].
  rewrite replace_nl_cons. cbn [string_forall]. rewrite IH.
  unfold not_newline. destruct (Ascii.eqb (ascii_of_N 10) c) eqn:E;
    [reflexivity|]. rewrite E. reflexivity.
Qed.

Lemma substring_0_length (n : nat) :
  forall s, String.length (String.substring 0 n s)
            = Nat.min n (String.length s).
Proof.
  induction n as [|n IH]; intros [|c s]; cbn [String.substring String.length];
    try reflexivity.
  rewrite IH. reflexivity.
Qed.

Lemma substring_0_forall (p : ascii -> bool) (n : nat) :
  forall s, string_forall p s = true ->
            string_forall p (String.substring 0 n s) = true.
Proof.
  induction n as [|n IH]; intros [|c s] H; cbn [String.substring];
    try reflexivity.
  cbn [string_forall] in H |- *. apply andb_true_iff in H as [Hc Hs].
  rewrite Hc, (IH s Hs). reflexivity.
Qed.

(** X17. The description depends on the first five labels, the first
    three objects and the first text only. From the first text it takes
    at most 100 characters, with every newline turned into a space. *)
Theorem describe_reads_a_prefix (response : vision_response) :
  describe response = describe (truncated response)
  /\ (label_annotations response = [] ->
      localized_object_annotations response = [] ->
      forall first rest,
        text_annotations response = first :: rest ->
        first <> EmptyString ->
        exists text,
          describe response = Some ("Text: " +:+ text)
          /\ String.length text = Nat.min 100 (String.length first)
          /\ string_forall not_newline text = true).
Proof.
  destruct response as [ls os ts]. split.
  - unfold describe, truncated.
    cbn [label_annotations localized_object_annotations text_annotations].
    rewrite !take_take. cbn [Nat.min].
    destruct ls as [|l ls], os as [|o os], ts as [|t ts]; reflexivity.
  - cbn [label_annotations localized_object_annotations text_annotations].
    intros -> -> first rest -> Hne.
    exists (slice (replace nl " " first) 0 100). split; [|split].
    + unfold describe.
      cbn [label_annotations localized_object_annotations text_annotations].
      destruct (slice (replace nl " " first) 0 100) eqn:E; [|reflexivity].
      exfalso. apply Hne. apply text_part_empty. exact E.
    + unfold slice. cbn [Nat.sub].
      rewrite substring_0_length, replace_nl_length. reflexivity.
    + unfold slice. apply substring_0_forall, replace_nl_clean.
Qed.

Lemma describe_reads_a_prefix_witness :
  exists text,
    describe {| label_annotations := [];
                localized_object_annotations := [];
                text_annotations := ["Revenue" +:+ nl +:+ "growth"; "x"] |}
    = Some ("Text: " +:+ text)
    /\ String.length text
       = Nat.min 100 (String.length ("Revenue" +:+ nl +:+ "growth"))
    /\ string_forall not_newline text = true.
Proof.
  apply (proj2 (describe_reads_a_prefix
                  {| label_annotations := [];
                     localized_object_annotations := [];
                     text_annotations :=
                       ["Revenue" +:+ nl +:+ "growth"; "x"] |})
           eq_refl eq_refl ("Revenue" +:+ nl +:+ "growth") ["x"] eq_refl).
  discriminate.
Defined.

(** ** Properties of [extract_images] *)

(** The name of the blob of image [img_index] of page [page_num]. *)
Definition image_blob_name (file_name : string) (page_num img_index : nat)
    (image_ext : string) : string :=
  "extracted_images/" +:+ file_name +:+ "_p" +:+ dec page_num +:+ "_i"
  +:+ dec img_index +:+ "." +:+ image_ext.

(** The invariant of the extraction: the counter counts the records,
    no record lacks its upload, and every record has the shape below. *)
Definition consistent (bucket_name file_name : string) (st : ingest) : Prop :=
  image_count st = length (added_images st)
  /\ (length (added_images st) <= length (uploaded st))%nat
  /\ forall r, r ∈ added_images st ->
       exists (page_num img_index : nat) (image_ext description : string)
              (w h : Z) (content : string),
         description <> EmptyString
         /\ r = [("source_file", VStr file_name);
                 ("page", VInt (Z.of_nat (page_num + 1)));
                 ("image_index", VInt (Z.of_nat img_index));
                 ("image_path",
                  VStr (image_blob_name file_name page_num img_index
                          image_ext));
                 ("public_url",
                  VStr ("https://storage.googleapis.com/" +:+ bucket_name
                        +:+ "/"
                        +:+ image_blob_name file_name page_num img_index
                              image_ext));
                 ("description", VStr description);
                 ("dimensions", VDict [("width", VInt w); ("height", VInt h)]);
                 ("format", VStr image_ext);
                 ("timestamp", SERVER_TIMESTAMP)]
         /\ (image_blob_name file_name page_num img_index image_ext,
             content, "image/" +:+ image_ext) ∈ uploaded st.

Lemma consistent_nothing (bucket_name file_name : string) :
  consistent bucket_name file_name nothing.
Proof.
  split; [reflexivity|]. split; [reflexivity|].
  intros r Hr. apply elem_of_nil in Hr. contradiction.
Qed.

Lemma consistent_upload (bucket_name file_name : string) (st : ingest)
    (u : string * string * string) :
  consistent bucket_name file_name st ->
  consistent bucket_name file_name
    {| uploaded := uploaded st ++ [u];
       added_images := added_images st;
       image_count := image_count st |}.
Proof.
  intros (H1 & H2 & H3). split; [exact H1|]. split.
  - cbn [added_images uploaded]. rewrite length_app. lia.
  - cbn [added_images uploaded]. intros r Hr.
    destruct (H3 r Hr) as (p & i & e & d & w & h & c & Hd & Hr' & Hu).
    exists p, i, e, d, w, h, c. split; [exact Hd|]. split; [exact Hr'|].
    apply elem_of_app. left. exact Hu.
Qed.

Lemma process_image_consistent (svc : services)
    (bucket_name file_name : string) (page_num img_index : nat)
    (img : attempt base_image) (st : ingest) :
  consistent bucket_name file_name st ->
  consistent bucket_name file_name
    (process_image svc bucket_name file_name page_num img_index img st).
Proof.
  intros Hst. unfold process_image.
  destruct img as [base|e]; [|exact Hst].
  destruct (analyze_image_with_vision _ _) as [vd|e]; [|exact Hst].
  destruct (upload_from_string svc _ _ _) as [[]|e]; [|exact Hst].
  cbv zeta.
  match goal with
  | |- consistent _ _ (match add_image svc ?data with _ => _ end) =>
      destruct (add_image svc data) as [[]|e]
  end; [|apply consistent_upload, Hst].
  destruct (consistent_upload bucket_name file_name st
              (("extracted_images/" +:+ file_name +:+ "_p" +:+ dec page_num
                +:+ "_i" +:+ dec img_index +:+ "." +:+ ext base),
               image_bytes base, "image/" +:+ ext base) Hst)
    as (H1 & H2 & H3).
  cbn [added_images uploaded image_count] in H1, H2, H3.
  split; [|split]; cbn [added_images uploaded image_count].
  - rewrite length_app. cbn [length]. lia.
  - destruct Hst as (_ & Hle & _). rewrite !length_app. cbn [length]. lia.
  - intros r Hr. apply elem_of_app in Hr as [Hr|Hr]; [exact (H3 r Hr)|].
    apply list_elem_of_singleton in Hr as ->.
    eexists page_num, img_index, (ext base), _, (width base), (height base),
      (image_bytes base).
    split; [|split; [reflexivity|]].
    + destruct vd as [[|c d]|]; discriminate.
    + apply elem_of_app. right. apply list_elem_of_here.
Qed.

Lemma images_loop_consistent (svc : services)
    (bucket_name file_name : string) (page_num : nat)
    (images : list (attempt base_image)) :
  forall (img_index : nat) (st : ingest),
    consistent bucket_name file_name st ->
    consistent bucket_name file_name
      (images_loop svc bucket_name file_name page_num img_index images st).
Proof.
  induction images as [|img rest IH]; intros img_index st Hst;
    cbn [images_loop]; [exact Hst|].
  apply IH, process_image_consistent, Hst.
Qed.

Lemma doc_loop_consistent (svc : services) (bucket_name file_name : string)
    (doc : list pdf_page) :
  forall (page_num : nat) (st : ingest),
    consistent bucket_name file_name st ->
    consistent bucket_name file_name
      (snd (doc_loop svc bucket_name file_name page_num doc st)).
Proof.
  induction doc as [|[images|e] rest IH]; intros page_num st Hst;
    cbn [doc_loop]; [exact Hst| |exact Hst].
  apply IH, images_loop_consistent, Hst.
Qed.

Lemma extract_images_consistent (svc : services)
    (bucket_name file_name : string) :
  consistent bucket_name file_name
    (snd (extract_images svc bucket_name file_name)).
Proof.
  unfold extract_images.
  destruct (extract_images_clients _ _) as [[]|e];
    [|apply consistent_nothing].
  destruct (get_blob _ _) as [blob|e]; [|apply consistent_nothing].
  destruct (open_pdf svc blob) as [doc|e]; [|apply consistent_nothing].
  pose proof (doc_loop_consistent svc bucket_name file_name doc 0 nothing
                (consistent_nothing _ _)) as H.
  destruct (doc_loop svc bucket_name file_name 0 doc nothing) as [[[]|e] st];
    exact H.
Qed.

(** X18. Whatever the services answer, the records [extract_images]
    adds are counted by its counter, none of them lacks its uploaded
    blob, and each ties its fields together: the blob name carries the
    page index counted from 0 where the [page] field counts from 1, the
    public URL is the bucket address followed by the blob name, and the
    description is never empty. *)
Theorem extract_images_records (svc : services)
    (bucket_name file_name : string) :
  let st := snd (extract_images svc bucket_name file_name) in
  image_count st = length (added_images st)
  /\ (length (added_images st) <= length (uploaded st))%nat
  /\ forall r, r ∈ added_images st ->
       exists (page_num img_index : nat) (image_ext description : string),
         field "source_file" r = Some (VStr file_name)
         /\ field "page" r = Some (VInt (Z.of_nat page_num + 1))
         /\ field "image_index" r = Some (VInt (Z.of_nat img_index))
         /\ field "format" r = Some (VStr image_ext)
         /\ field "image_path" r
            = Some (VStr ("extracted_images/" +:+ file_name +:+ "_p"
                          +:+ dec page_num +:+ "_i" +:+ dec img_index
                          +:+ "." +:+ image_ext))
         /\ field "public_url" r
            = Some (VStr ("https://storage.googleapis.com/" +:+ bucket_name
                          +:+ "/extracted_images/" +:+ file_name +:+ "_p"
                          +:+ dec page_num +:+ "_i" +:+ dec img_index
                          +:+ "." +:+ image_ext))
         /\ field "description" r = Some (VStr description)
         /\ description <> EmptyString
         /\ exists content,
              ("extracted_images/" +:+ file_name +:+ "_p" +:+ dec page_num
               +:+ "_i" +:+ dec img_index +:+ "." +:+ image_ext,
               content, "image/" +:+ image_ext) ∈ uploaded st.
Proof.
  cbv zeta.
  destruct (extract_images_consistent svc bucket_name file_name)
    as (H1 & H2 & H3).
  split; [exact H1|]. split; [exact H2|]. intros r Hr.
  destruct (H3 r Hr) as (p & i & e & d & w & h & c & Hd & -> & Hu).
  exists p, i, e, d.
  split; [reflexivity|]. split.
  { cbn. rewrite Nat2Z.inj_add. reflexivity. }
  split; [reflexivity|]. split; [reflexivity|]. split; [reflexivity|].
  split.
  { unfold image_blob_name. reflexivity. }
  split; [reflexivity|]. split; [exact Hd|]. exists c. exact Hu.
Qed.

(** A page that could be loaded and listed. *)
Definition loaded (page : pdf_page) : Prop := exists images, page = Ok images.

Lemma doc_loop_ok (svc : services) (bucket_name file_name : string)
    (doc : list pdf_page) :
  forall (page_num : nat) (st : ingest),
    fst (doc_loop svc bucket_name file_name page_num doc st) = Ok tt
    <-> Forall loaded doc.
Proof.
  induction doc as [|[images|e] rest IH]; intros page_num st; cbn [doc_loop].
  - split; [constructor|reflexivity].
  - rewrite IH. split; intros H.
    + constructor; [exists images; reflexivity|exact H].
    + apply Forall_cons in H as [_ H]. exact H.
  - split; [discriminate|]. intros H. apply Forall_cons in H as [[i Hi] _].
    discriminate Hi.
Qed.

(** The images of a document that could be loaded. *)
Fixpoint image_total (doc : list pdf_page) : nat :=
  match doc with
  | [] => 0
  | Ok images :: rest => length images + image_total rest
  | Fail _ :: rest => image_total rest
  end.

Lemma process_image_count (svc : services) (bucket_name file_name : string)
    (page_num img_index : nat) (img : attempt base_image) (st : ingest) :
  (image_count st
   <= image_count (process_image svc bucket_name file_name page_num
                     img_index img st)
   <= S (image_count st))%nat.
Proof.
  unfold process_image.
  destruct img as [base|e]; [|lia].
  destruct (analyze_image_with_vision _ _) as [vd|e]; [|lia].
  destruct (upload_from_string svc _ _ _) as [[]|e]; [|lia].
  cbv zeta.
  match goal with
  | |- context [add_image svc ?data] => destruct (add_image svc data) as [[]|e]
  end; cbn [image_count]; lia.
Qed.

Lemma images_loop_count (svc : services) (bucket_name file_name : string)
    (page_num : nat) (images : list (attempt base_image)) :
  forall (img_index : nat) (st : ingest),
    (image_count st
     <= image_count (images_loop svc bucket_name file_name page_num
                       img_index images st)
     <= image_count st + length images)%nat.
Proof.
  induction images as [|img rest IH]; intros img_index st;
    cbn [images_loop length]; [lia|].
  pose proof (process_image_count svc bucket_name file_name page_num
                img_index img st).
  pose proof (IH (S img_index)
                (process_image svc bucket_name file_name page_num img_index
                   img st)).
  lia.
Qed.

Lemma doc_loop_count (svc : services) (bucket_name file_name : string)
    (doc : list pdf_page) :
  forall (page_num : nat) (st : ingest),
    (image_count (snd (doc_loop svc bucket_name file_name page_num doc st))
     <= image_count st + image_total doc)%nat.
Proof.
  induction doc as [|[images|e] rest IH]; intros page_num st;
    cbn [doc_loop image_total snd]; [lia| |lia].
  pose proof (images_loop_count svc bucket_name file_name page_num images 0
                st).
  pose proof (IH (S page_num)
                (images_loop svc bucket_name file_name page_num 0 images st)).
  lia.
Qed.

(** X19. [extract_images] raises exactly when one of the constructors
    before its [try] raises, and then nothing was done. It returns [True]
    exactly when they succeed, the file is found under one of its
    spellings, the PDF opens and every page can be loaded: an image that
    fails, at extraction, at the Vision call, at the upload or at the
    write, is skipped and never makes the result [False]. The counter
    never exceeds the number of images of the document. *)
Theorem extract_images_result (svc : services)
    (bucket_name file_name : string) :
  (forall e,
     fst (extract_images svc bucket_name file_name) = Fail e
     <-> extract_images_clients svc bucket_name = Fail e)
  /\ (fst (extract_images svc bucket_name file_name) = Ok true
      <-> extract_images_clients svc bucket_name = Ok tt
          /\ exists (blob : string) (doc : list pdf_page),
               get_blob (blob_exists svc) file_name = Ok blob
               /\ open_pdf svc blob = Ok doc
               /\ Forall loaded doc)
  /\ (extract_images_clients svc bucket_name <> Ok tt ->
      snd (extract_images svc bucket_name file_name) = nothing)
  /\ (forall (blob : string) (doc : list pdf_page),
        get_blob (blob_exists svc) file_name = Ok blob ->
        open_pdf svc blob = Ok doc ->
        (image_count (snd (extract_images svc bucket_name file_name))
         <= image_total doc)%nat).
Proof.
  unfold extract_images.
  destruct (extract_images_clients svc bucket_name) as [[]|e0].
  - split; [|split; [|split]].
    + intros e. destruct (get_blob _ _) as [blob|e1];
        [|split; discriminate].
      destruct (open_pdf svc blob) as [doc|e1]; [|split; discriminate].
      destruct (doc_loop svc bucket_name file_name 0 doc nothing)
        as [[[]|e1] st]; split; discriminate.
    + destruct (get_blob _ _) as [blob|e].
      * destruct (open_pdf svc blob) as [doc|e] eqn:Eo.
        -- pose proof (doc_loop_ok svc bucket_name file_name doc 0 nothing)
             as H.
           destruct (doc_loop svc bucket_name file_name 0 doc nothing)
             as [[[]|e] st]; cbn [fst] in H |- *.
           ++ split; [intros _|reflexivity]. split; [reflexivity|].
              exists blob, doc. split; [reflexivity|]. split; [exact Eo|].
              apply H. reflexivity.
           ++ split; [discriminate|].
              intros (_ & b & d & [= <-] & Hd & Hl).
              rewrite Eo in Hd. injection Hd as <-. apply H in Hl.
              discriminate Hl.
        -- split; [discriminate|]. intros (_ & b & d & [= <-] & Hd & _).
           rewrite Eo in Hd. discriminate Hd.
      * split; [discriminate|]. intros (_ & b & d & Hb & _).
        discriminate Hb.
    + intros H. exfalso. apply H. reflexivity.
    + intros blob doc -> ->.
      pose proof (doc_loop_count svc bucket_name file_name doc 0 nothing)
        as H.
      destruct (doc_loop svc bucket_name file_name 0 doc nothing)
        as [[[]|e] st]; exact H.
  - split; [|split; [|split]].
    + intros e. cbn [fst]. split; intros [= <-]; reflexivity.
    + cbn [fst]. split; [discriminate|]. intros [H _]. discriminate H.
    + intros _. reflexivity.
    + intros blob doc _ _. cbn [snd nothing image_count]. lia.
Qed.

(** ** From the ingestion to the search *)





(** ** Properties of [process_pdf] *)

(** An output blob the shard loop does not skip. *)
Definition selected (base_name : string) (blob : output_blob) : bool :=
  endswith (blob_name blob) ".json" && str_in base_name (blob_name blob).

(** The pages of the selected shards that parse. *)
Fixpoint selected_pages (base_name : string) (blobs : list output_blob)
    : nat :=
  match blobs with
  | [] => 0
  | blob :: rest =>
      (if selected base_name blob
       then match from_json blob with
            | Ok doc => length (doc_pages doc)
            | Fail _ => 0
            end
       else 0) + selected_pages base_name rest
  end.

(** The records [new] are numbered from [total + 1] on and name the
    file. *)
Definition numbered (file_name : string) (total : nat) (new : list record)
    : Prop :=
  map (field "page") new
  = map (fun k => Some (VInt (Z.of_nat k))) (seq (S total) (length new))
  /\ Forall (fun r => field "source_file" r = Some (VStr file_name)) new.

Lemma numbered_nil (file_name : string) (total : nat) :
  numbered file_name total [].
Proof. split; [reflexivity|constructor]. Qed.

Lemma numbered_app (file_name : string) (total : nat) (a b : list record) :
  numbered file_name total a ->
  numbered file_name (total + length a) b ->
  numbered file_name total (a ++ b).
Proof.
  intros [Ha1 Ha2] [Hb1 Hb2]. split.
  - rewrite map_app, length_app, seq_app, map_app, Ha1, Hb1.
    replace (S total + length a)%nat with (S (total + length a)) by lia.
    reflexivity.
  - apply Forall_app. split; assumption.
Qed.

Lemma pages_loop_numbered (svc : services) (file_name text : string)
    (pages : list doc_page) :
  forall (total : nat) (added : list record),
    exists new : list record,
      snd (pages_loop svc file_name text pages total added) = added ++ new
      /\ numbered file_name total new
      /\ forall n,
           fst (pages_loop svc file_name text pages total added) = Ok n ->
           n = (total + length new)%nat
           /\ length new = length pages
           /\ Forall (fun p => text_segments p <> []) pages.
Proof.
  induction pages as [|page rest IH]; intros total added; cbn [pages_loop].
  - exists []. rewrite app_nil_r. split; [reflexivity|].
    split; [apply numbered_nil|]. intros n [= <-]. cbn [length].
    split; [lia|]. split; [reflexivity|constructor].
  - cbv zeta.
    destruct (text_segments page) as [|[start stop] segs] eqn:Eseg.
    + exists []. rewrite app_nil_r. split; [reflexivity|].
      split; [apply numbered_nil|]. discriminate.
    + match goal with
      | |- context [add_text svc ?data] =>
          set (d := data); destruct (add_text svc d) as [[]|e]
      end.
      * destruct (IH (S total) (added ++ [d])) as (new & H1 & H2 & H3).
        exists (d :: new).
        split; [etransitivity; [exact H1|]; rewrite <- app_assoc; reflexivity|].
        split.
        -- apply (numbered_app file_name total [d] new).
           ++ split; [reflexivity|]. constructor; [reflexivity|constructor].
           ++ cbn [length]. replace (total + 1)%nat with (S total) by lia.
              exact H2.
        -- intros n Hn. destruct (H3 n Hn) as (Hn1 & Hn2 & Hn3).
           cbn [length]. split; [lia|]. split; [lia|].
           constructor; [rewrite Eseg; discriminate|exact Hn3].
      * exists []. rewrite app_nil_r. split; [reflexivity|].
        split; [apply numbered_nil|]. discriminate.
Qed.

(** A selected shard that parses into pages that all have a segment. *)
Definition readable (base_name : string) (blob : output_blob) : Prop :=
  selected base_name blob = true ->
  exists doc, from_json blob = Ok doc
              /\ Forall (fun p => text_segments p <> []) (doc_pages doc).

Lemma skip_test (base_name : string) (blob : output_blob) :
  negb (endswith (blob_name blob) ".json")
  || negb (str_in base_name (blob_name blob))
  = negb (selected base_name blob).
Proof. unfold selected. rewrite negb_andb. reflexivity. Qed.

Lemma shards_loop_numbered (svc : services) (file_name base_name : string)
    (blobs : list output_blob) :
  forall (total : nat) (added : list record),
    exists new : list record,
      snd (shards_loop svc file_name base_name blobs total added)
      = added ++ new
      /\ numbered file_name total new
      /\ forall n,
           fst (shards_loop svc file_name base_name blobs total added) = Ok n
           -> n = (total + length new)%nat
              /\ length new = selected_pages base_name blobs
              /\ Forall (readable base_name) blobs.
Proof.
  induction blobs as [|blob rest IH]; intros total added;
    cbn [shards_loop selected_pages].
  - exists []. rewrite app_nil_r. split; [reflexivity|].
    split; [apply numbered_nil|]. intros n [= <-]. cbn [length].
    split; [lia|]. split; [reflexivity|constructor].
  - rewrite skip_test. destruct (selected base_name blob) eqn:Esel;
      cbn [negb].
    + destruct (from_json blob) as [doc|e] eqn:Ejson.
      * destruct (pages_loop_numbered svc file_name (doc_text doc)
                    (doc_pages doc) total added) as (new1 & H1 & H2 & H3).
        destruct (pages_loop svc file_name (doc_text doc) (doc_pages doc)
                    total added) as [[n1|e] added1];
          cbn [fst snd] in H1, H3.
        -- subst added1. destruct (H3 n1 eq_refl) as (Hn1 & Hlen1 & Hseg).
           destruct (IH n1 (added ++ new1)) as (new2 & K1 & K2 & K3).
           exists (new1 ++ new2).
           split; [rewrite K1, <- app_assoc; reflexivity|]. split.
           ++ apply numbered_app; [exact H2|]. rewrite <- Hn1. exact K2.
           ++ intros n Hn. destruct (K3 n Hn) as (Kn & Klen & Kall).
              rewrite length_app. split; [lia|]. split; [lia|].
              constructor; [|exact Kall].
              intros _. exists doc. split; [exact Ejson|exact Hseg].
        -- exists new1. split; [exact H1|]. split; [exact H2|]. discriminate.
      * exists []. rewrite app_nil_r. split; [reflexivity|].
        split; [apply numbered_nil|]. discriminate.
    + destruct (IH total added) as (new & K1 & K2 & K3).
      exists new. split; [exact K1|]. split; [exact K2|].
      intros n Hn. destruct (K3 n Hn) as (Kn & Klen & Kall).
      split; [exact Kn|]. split; [cbn [Nat.add]; exact Klen|].
      constructor; [|exact Kall]. intros H. rewrite Esel in H. discriminate H.
Qed.

Lemma check_statuses_ok (statuses : list (Z * string)) :
  check_statuses statuses = Ok tt
  <-> Forall (fun status => fst status = 0%Z) statuses.
Proof.
  induction statuses as [|[code message] rest IH]; cbn [check_statuses].
  - split; [constructor|reflexivity].
  - destruct (Z.eqb_spec code 0) as [->|Hne]; cbn [negb].
    + rewrite IH. split; intros H.
      * constructor; [reflexivity|exact H].
      * apply Forall_cons in H as [_ H]. exact H.
    + split; [discriminate|]. intros H. apply Forall_cons in H as [H _].
      contradiction.
Qed.

(** What holds when the [try] block of [process_pdf] comes to its end. *)
Definition processed (svc : services) (bucket_name file_name : string)
    (added : list record) : Prop :=
  exists (blob : string) (statuses : list (Z * string))
         (blobs : list output_blob),
    get_blob (blob_exists svc) file_name = Ok blob
    /\ batch_process svc ("gs://" +:+ bucket_name +:+ "/" +:+ blob)
       = Ok statuses
    /\ Forall (fun status => fst status = 0%Z) statuses
    /\ list_blobs svc "processed/" = Ok blobs
    /\ blobs <> []
    /\ Forall (readable (replace ".pdf" "" file_name)) blobs
    /\ length added = selected_pages (replace ".pdf" "" file_name) blobs.

Lemma process_pdf_body_spec (svc : services) (bucket_name file_name : string) :
  numbered file_name 0 (snd (process_pdf_body svc bucket_name file_name))
  /\ forall n,
       fst (process_pdf_body svc bucket_name file_name) = Ok n ->
       processed svc bucket_name file_name
         (snd (process_pdf_body svc bucket_name file_name)).
Proof.
  unfold process_pdf_body, processed.
  destruct (get_blob _ _) as [blob|e];
    [|split; [apply numbered_nil|discriminate]].
  destruct (batch_process svc _) as [statuses|e] eqn:Eb;
    [|split; [apply numbered_nil|discriminate]].
  destruct (check_statuses statuses) as [[]|e] eqn:Ec;
    [|split; [apply numbered_nil|discriminate]].
  destruct (list_blobs svc "processed/") as [[|b0 blobs]|e] eqn:El;
    [split; [apply numbered_nil|discriminate]|
    |split; [apply numbered_nil|discriminate]].
  destruct (shards_loop_numbered svc file_name (replace ".pdf" "" file_name)
              (b0 :: blobs) 0 []) as (new & H1 & H2 & H3).
  rewrite H1. cbn [app]. split; [exact H2|].
  intros n Hn. destruct (H3 n Hn) as (_ & Hlen & Hall).
  exists blob, statuses, (b0 :: blobs).
  split; [reflexivity|]. split; [exact Eb|].
  split; [apply check_statuses_ok, Ec|]. split; [reflexivity|].
  split; [discriminate|]. split; [exact Hall|exact Hlen].
Qed.

(** X21. Whatever happens, the records [process_pdf] has added to
    [pdf_text] name the file and carry the page numbers 1, 2, 3, ... in
    the order written: the counter runs on across the output shards,
    and records written before a failure stay. When the function
    returns [True], there is one record for each page of the selected
    shards. *)
Theorem process_pdf_numbers_pages (svc : services)
    (bucket_name file_name : string) :
  let added := snd (process_pdf svc bucket_name file_name) in
  map (field "page") added
  = map (fun k => Some (VInt (Z.of_nat k))) (seq 1 (length added))
  /\ Forall (fun r => field "source_file" r = Some (VStr file_name)) added
  /\ (fst (process_pdf svc bucket_name file_name) = Ok true ->
      exists blobs,
        list_blobs svc "processed/" = Ok blobs
        /\ length added
           = selected_pages (replace ".pdf" "" file_name) blobs).
Proof.
  cbv zeta. unfold process_pdf.
  destruct (process_pdf_clients svc bucket_name) as [[]|e];
    [|split; [reflexivity|split; [constructor|discriminate]]].
  destruct (bucket_exists svc) as [[]|e];
    try (split; [reflexivity|split; [constructor|discriminate]]).
  destruct (process_pdf_body_spec svc bucket_name file_name) as [[H1 H2] H3].
  destruct (process_pdf_body svc bucket_name file_name) as [[n|e] added];
    cbn [fst snd] in *.
  - split; [exact H1|]. split; [exact H2|]. intros _.
    destruct (H3 n eq_refl) as (b & s & blobs & _ & _ & _ & Hl & _ & _ & Hn).
    exists blobs. split; [exact Hl|exact Hn].
  - split; [exact H1|]. split; [exact H2|]. discriminate.
Qed.

(** X22. [process_pdf] raises only before its [try]: the exception of
    one of the constructors or of the existence test of the bucket, or
    [ValueError] for a missing bucket, and then nothing was written.
    Every later failure makes it return [False]. It returns [True] only
    if the file was found, the batch ended with every status code 0, at
    least one output blob was listed, and every selected shard parsed
    into pages that each have a text segment. *)
Theorem process_pdf_outcome (svc : services) (bucket_name file_name : string) :
  (forall e,
     fst (process_pdf svc bucket_name file_name) = Fail e
     <-> process_pdf_clients svc bucket_name = Fail e
         \/ (process_pdf_clients svc bucket_name = Ok tt
             /\ (bucket_exists svc = Fail e
                 \/ (bucket_exists svc = Ok false /\ e = ValueError))))
  /\ ((forall b, fst (process_pdf svc bucket_name file_name) <> Ok b) ->
      snd (process_pdf svc bucket_name file_name) = [])
  /\ (fst (process_pdf svc bucket_name file_name) = Ok true ->
      process_pdf_clients svc bucket_name = Ok tt
      /\ bucket_exists svc = Ok true
      /\ processed svc bucket_name file_name
           (snd (process_pdf svc bucket_name file_name))).
Proof.
  unfold process_pdf.
  destruct (process_pdf_clients svc bucket_name) as [[]|e0].
  - destruct (bucket_exists svc) as [[]|e0] eqn:E.
    + destruct (process_pdf_body_spec svc bucket_name file_name) as [_ H3].
      destruct (process_pdf_body svc bucket_name file_name)
        as [[n|e1] added]; cbn [fst snd] in *.
      * split; [|split].
        -- intros e. split; [discriminate|].
           intros [H|[_ [H|[H _]]]]; discriminate H.
        -- intros H. exfalso. exact (H true eq_refl).
        -- intros _. split; [reflexivity|]. split; [reflexivity|].
           exact (H3 n eq_refl).
      * split; [|split; [|discriminate]].
        -- intros e. split; [discriminate|].
           intros [H|[_ [H|[H _]]]]; discriminate H.
        -- intros H. exfalso. exact (H false eq_refl).
    + split; [|split; [reflexivity|discriminate]].
      intros e. cbn [fst]. split.
      * intros [= <-]. right. split; [reflexivity|]. right.
        split; reflexivity.
      * intros [H|[_ [H|[_ ->]]]]; [discriminate H|discriminate H|].
        reflexivity.
    + split; [|split; [reflexivity|discriminate]].
      intros e. cbn [fst]. split.
      * intros [= <-]. right. split; [reflexivity|]. left. reflexivity.
      * intros [H|[_ [[= <-]|[H _]]]];
          [discriminate H|reflexivity|discriminate H].
  - split; [|split; [reflexivity|discriminate]].
    intros e. cbn [fst]. split.
    + intros [= <-]. left. reflexivity.
    + intros [[= <-]|[H _]]; [reflexivity|discriminate H].
Qed.

(** ** Properties of [extract_images_from_pdf] *)








(** ** Properties of the command line *)

(** X24. The script uploads no image and adds no image record unless
    [--extract-images] was given and [process_pdf] returned [True], so
    only after every page of the selected shards was stored. It ends with
    an exception in two cases only: [process_pdf] raises before its
    [try], and nothing was written; or the extraction, once started,
    cannot build its clients, and then the text records stay and no
    image was uploaded or recorded. A text processing or an extraction
    that fails later never makes it fail. *)
Theorem images_only_after_text (svc svc' : services)
    (bucket_name file_name : string) (extract_images_flag : bool) :
  let run := main svc svc' bucket_name file_name extract_images_flag in
  let extracting :=
    extract_images_flag = true
    /\ fst (process_pdf svc bucket_name file_name) = Ok true in
  (uploaded (snd run) <> [] \/ added_images (snd run) <> [] ->
   extracting
   /\ fst (fst run) = Ok tt
   /\ processed svc bucket_name file_name (snd (fst run)))
  /\ (forall e,
        fst (fst run) = Fail e
        <-> fst (process_pdf svc bucket_name file_name) = Fail e
            \/ (extracting
                /\ extract_images_clients svc' bucket_name = Fail e))
  /\ (forall e, fst (fst run) = Fail e -> snd run = nothing)
  /\ (forall e,
        fst (process_pdf svc bucket_name file_name) = Fail e ->
        snd (fst run) = [])
  /\ snd (fst run) = snd (process_pdf svc bucket_name file_name).
Proof.
  cbv zeta. unfold main.
  pose proof (process_pdf_body_spec svc bucket_name file_name) as [_ H3].
  assert (Hp : fst (process_pdf svc bucket_name file_name) = Ok true ->
               processed svc bucket_name file_name
                 (snd (process_pdf svc bucket_name file_name))).
  { unfold process_pdf.
    destruct (process_pdf_clients svc bucket_name) as [[]|e0];
      [|discriminate].
    destruct (bucket_exists svc) as [[]|e0]; try discriminate.
    destruct (process_pdf_body svc bucket_name file_name) as [[n|e1] added];
      cbn [fst snd] in *; [|discriminate].
    intros _. exact (H3 n eq_refl). }
  assert (He : forall e, fst (process_pdf svc bucket_name file_name) = Fail e
                         -> snd (process_pdf svc bucket_name file_name) = []).
  { unfold process_pdf.
    destruct (process_pdf_clients svc bucket_name) as [[]|e0];
      [|reflexivity].
    destruct (bucket_exists svc) as [[]|e0]; try reflexivity.
    destruct (process_pdf_body svc bucket_name file_name) as [[n|e1] added];
      discriminate. }
  clear H3.
  destruct (process_pdf svc bucket_name file_name) as [[[]|e0] added];
    cbn [fst snd] in *.
  - destruct extract_images_flag; cbn [andb].
    + unfold extract_images.
      destruct (extract_images_clients svc' bucket_name) as [[]|e1].
      * assert (Hrun : exists ok st,
                   match get_blob (blob_exists svc') file_name with
                   | Ok blob =>
                       match open_pdf svc' blob with
                       | Ok doc =>
                           match doc_loop svc' bucket_name file_name 0 doc
                                   nothing with
                           | (Ok _, st) => (Ok true, st)
                           | (Fail _, st) => (Ok false, st)
                           end
                       | Fail _ => (Ok false, nothing)
                       end
                   | Fail _ => (Ok false, nothing)
                   end = (Ok ok, st)).
        { destruct (get_blob _ _) as [blob|e]; [|eexists _, _; reflexivity].
          destruct (open_pdf svc' blob) as [doc|e];
            [|eexists _, _; reflexivity].
          destruct (doc_loop svc' bucket_name file_name 0 doc nothing)
            as [[[]|e] st]; eexists _, _; reflexivity. }
        destruct Hrun as (ok & st & ->). cbn [fst snd].
        split; [intros _; split; [split; reflexivity|];
                split; [reflexivity|exact (Hp eq_refl)]|].
        split; [|split; [discriminate|split; [discriminate|reflexivity]]].
        intros e. split; [discriminate|].
        intros [H|[_ H]]; discriminate H.
      * cbn [fst snd].
        split; [intros [H|H]; exfalso; apply H; reflexivity|].
        split; [|split; [reflexivity|split; [discriminate|reflexivity]]].
        intros e. split.
        -- intros [= <-]. right. split; [split; reflexivity|reflexivity].
        -- intros [H|[_ [= <-]]]; [discriminate H|reflexivity].
    + cbn [fst snd].
      split; [intros [H|H]; exfalso; apply H; reflexivity|].
      split; [|split; [discriminate|split; [discriminate|reflexivity]]].
      intros e. split; [discriminate|].
      intros [H|[[H _] _]]; discriminate H.
  - rewrite andb_false_r. cbn [fst snd].
    split; [intros [H|H]; exfalso; apply H; reflexivity|].
    split; [|split; [discriminate|split; [discriminate|reflexivity]]].
    intros e. split; [discriminate|].
    intros [H|[[_ H] _]]; discriminate H.
  - cbn [fst snd].
    split; [intros [H|H]; exfalso; apply H; reflexivity|].
    split; [|split; [reflexivity|split; [|reflexivity]]].
    + intros e. split.
      * intros [= <-]. left. reflexivity.
      * intros [[= <-]|[[_ H] _]]; [reflexivity|discriminate H].
    + intros e _. exact (He e0 eq_refl).
Qed.

(** ** The pipeline on the sample bucket *)

Lemma describe_none_or_not_empty_witness :
  describe {| label_annotations := [];
              localized_object_annotations := [];
              text_annotations := [EmptyString; "Chart"] |} = None
  /\ "Contains: Chart" <> EmptyString.
Proof.
  split.
  - apply (proj1 (describe_none_or_not_empty _)).
    split; [reflexivity|]. split; [reflexivity|].
    intros first rest [= <- _]. reflexivity.
  - apply (proj2 (describe_none_or_not_empty
                    {| label_annotations := ["Chart"];
                       localized_object_annotations := [];
                       text_annotations := [] |})).
    reflexivity.
Defined.

Lemma extract_images_records_witness :
  let st := snd (extract_images chart_services "docs" "report.pdf") in
  added_images st = [chart_record]
  /\ image_count st = 1%nat
  /\ uploaded st
     = [("extracted_images/report.pdf_p0_i0.png", "PNG", "image/png")].
Proof.
  cbv zeta. split; [reflexivity|]. split; [|reflexivity].
  exact (proj1 (extract_images_records chart_services "docs" "report.pdf")).
Defined.

Lemma extract_images_result_witness :
  fst (extract_images chart_services "docs" "report.pdf") = Ok true
  /\ (image_count (snd (extract_images chart_services "docs" "report.pdf"))
      <= 3)%nat
  /\ extract_images locked_services "docs" "report.pdf"
     = (Fail OtherError, nothing).
Proof.
  split; [|split].
  - apply (proj1 (proj2 (extract_images_result chart_services "docs"
                           "report.pdf"))).
    split; [reflexivity|].
    exists "report.pdf", [Ok [Ok chart_image; Ok scan_image; Fail OtherError];
                          Ok []].
    split; [reflexivity|]. split; [reflexivity|].
    repeat constructor; eexists; reflexivity.
  - apply (proj2 (proj2 (proj2 (extract_images_result chart_services "docs"
                                  "report.pdf")))
             "report.pdf"
             [Ok [Ok chart_image; Ok scan_image; Fail OtherError]; Ok []]);
      reflexivity.
  - apply injective_projections.
    + apply (proj1 (extract_images_result locked_services "docs"
                      "report.pdf")). reflexivity.
    + apply (proj1 (proj2 (proj2 (extract_images_result locked_services
                                    "docs" "report.pdf")))).
      discriminate.
Defined.

Lemma process_pdf_numbers_pages_witness :
  fst (process_pdf chart_services "docs" "report.pdf") = Ok true
  /\ map (field "page") (snd (process_pdf chart_services "docs" "report.pdf"))
     = [Some (VInt 1); Some (VInt 2); Some (VInt 3)]
  /\ map (field "content")
       (snd (process_pdf chart_services "docs" "report.pdf"))
     = [Some (VStr "Summary"); Some (VStr "Details");
        Some (VStr "Appendix")].
Proof.
  split; [reflexivity|]. split; [|reflexivity].
  exact (proj1 (process_pdf_numbers_pages chart_services "docs"
                  "report.pdf")).
Defined.

Lemma process_pdf_outcome_witness :
  processed chart_services "docs" "report.pdf"
    (snd (process_pdf chart_services "docs" "report.pdf"))
  /\ fst (process_pdf locked_services "docs" "report.pdf") = Fail OtherError
  /\ snd (process_pdf locked_services "docs" "report.pdf") = [].
Proof.
  split; [|split].
  - apply (proj2 (proj2 (process_pdf_outcome chart_services "docs"
                           "report.pdf"))).
    reflexivity.
  - apply (proj1 (process_pdf_outcome locked_services "docs" "report.pdf")).
    left. reflexivity.
  - apply (proj1 (proj2 (process_pdf_outcome locked_services "docs"
                           "report.pdf"))).
    intros b. discriminate.
Defined.


Lemma images_only_after_text_witness :
  (let run := main chart_services chart_services "docs" "report.pdf" true in
   added_images (snd run) = [chart_record]
   /\ fst (fst run) = Ok tt
   /\ length (snd (fst run)) = 3%nat
   /\ processed chart_services "docs" "report.pdf" (snd (fst run)))
  /\ (let run := main chart_services locked_services "docs" "report.pdf"
                   true in
      fst (fst run) = Fail OtherError
      /\ length (snd (fst run)) = 3%nat
      /\ snd run = nothing).
Proof.
  cbv zeta. split.
  - split; [reflexivity|].
    destruct (proj1 (images_only_after_text chart_services chart_services
                       "docs" "report.pdf" true)) as (_ & H2 & H3).
    + right. discriminate.
    + split; [exact H2|]. split; [reflexivity|exact H3].
  - assert (H : fst (fst (main chart_services locked_services "docs"
                            "report.pdf" true)) = Fail OtherError).
    { apply (proj1 (proj2 (images_only_after_text chart_services
                             locked_services "docs" "report.pdf" true))).
      right. split; [split; reflexivity|reflexivity]. }
    split; [exact H|]. split; [reflexivity|].
    exact (proj1 (proj2 (proj2 (images_only_after_text chart_services
                                  locked_services "docs" "report.pdf" true)))
             OtherError H).
Defined.

End Processor.

(** * The scorer and the search in binary64

    Where the exact value of a score decides a property (a score on a
    threshold, two scores that tie, the value of the formula), the
    scorer is taken with the arithmetic of the program: every Python
    [float] is a binary64 number, every operation rounds to nearest,
    ties to even, and the sum of the base score runs over the set of
    query words in the order the interpreter iterates it.

    A float is the rational it denotes. Infinities and NaN are left out:
    the scorer divides word counts, adds quotients that are at most 1
    and adds the two bonuses, and none of this leaves the finite floats
    for a query of fewer than [2^1024] words. *)

Module Binary64.

(** ** Binary64 arithmetic *)

(** [2^e] for an integer [e]. *)
Definition pow2 (e : Z) : Q :=
  if (0 <=? e)%Z then inject_Z (2 ^ e) else 1 # Z.to_pos (2 ^ (- e)).

(** The integer [k] with [2^k <= x < 2^(k+1)], for [0 < x]. *)
Definition ilog2 (x : Q) : Z :=
  let k := (Z.log2 (Qnum x) - Z.log2 (Zpos (Qden x)))%Z in
  if Qle_bool (pow2 k) x then k else (k - 1)%Z.

(** The integer nearest to [m], the even one of two that are equally
    near. *)
Definition round_half_even (m : Q) : Z :=
  let f := Qfloor m in
  match Qcompare (m - inject_Z f)%Q (1 # 2)%Q with
  | Lt => f
  | Gt => (f + 1)%Z
  | Eq => if Z.even f then f else (f + 1)%Z
  end.

(** The binary64 number nearest to [x]: 53 significant bits, the least
    exponent that of the subnormal numbers. *)
Definition RN (x : Q) : Q :=
  if Qeq_bool x 0 then 0%Q
  else
    let e := (Z.max (ilog2 (Qabs x)) (-1022) - 52)%Z in
    Qred (inject_Z (round_half_even (x / pow2 e)%Q) * pow2 e)%Q.

(** [x + y], [x - y] and [x / y] on floats. *)
Definition fadd (x y : Q) : Q := RN (x + y)%Q.
Definition fsub (x y : Q) : Q := RN (x - y)%Q.
Definition fdiv (x y : Q) : Q := RN (x / y)%Q.

(** [float(n)] for an [int], as [float / int] converts its divisor. *)
Definition of_int (n : nat) : Q := RN (Qnat n).

(** [a / b] on two [int]s: the quotient, rounded once. *)
Definition int_div (a b : nat) : Q := RN (Qnat a / Qnat b)%Q.

(** The rational a hardware float denotes. *)
Definition hardware (f : PrimFloat.float) : option Q :=
  match FloatOps.Prim2SF f with
  | SpecFloat.S754_zero _ => Some 0%Q
  | SpecFloat.S754_finite s m e =>
      Some (Qred (inject_Z (if s then Zneg m else Zpos m) * pow2 e)%Q)
  | _ => None
  end.

Definition hw (z : Z) : PrimFloat.float :=
  PrimFloat.of_uint63 (Uint63.of_Z z).

(** ** The interpreter *)

(** What the scorer takes from the interpreter it runs on: the order in
    which a set built from a list of words is iterated, which string
    hashing fixes for one process and which is some order of the
    distinct words; and whether [sum] compensates the rounding of a sum
    of floats, as CPython does from version 3.12 on. *)
Record interpreter : Type := {
  set_order : list string -> list string;
  set_order_perm : forall words, set_order words ≡ₚ remove_dups words;
  compensated : bool
}.

(** The loop of a compensated [sum] (Neumaier): [c] collects what the
    additions lose and is added back at the end, when it is not zero. *)
Fixpoint neumaier (f_result c : Q) (items : list Q) : Q :=
  match items with
  | [] => if Qeq_bool c 0 then f_result else fadd f_result c
  | x :: items' =>
      let t := fadd f_result x in
      let c :=
        if Qle_bool (Qabs x) (Qabs f_result)
        then fadd c (fadd (fsub f_result t) x)
        else fadd c (fadd (fsub x t) f_result) in
      neumaier t c items'
  end.

(** [sum(items)] for floats: the [int] 0 when there is none; otherwise
    the start value 0 plus the first, then the others from left to
    right. *)
Definition sum (py : interpreter) (items : list Q) : Q :=
  match items with
  | [] => 0%Q
  | x :: items' =>
      let result := fadd 0 x in
      if compensated py then neumaier result 0 items'
      else fold_left fadd items' result
  end.

(** ** Configuration *)

(** The literals [0.001], [0.05] and [0.01] are the floats nearest to
    them. *)
Definition VIDEO_THRESHOLD : Q := RN (1 # 1000).
Definition TEXT_THRESHOLD : Q := RN (5 # 100).
Definition IMAGE_THRESHOLD : Q := RN (1 # 100).

(** ** The scorer *)

(** [calculate_tfidf_score(query, text)]. [query_words] is the set, in
    its iteration order. With no query word in the text the sum is the
    [int] 0 and the quotient [0 / len(query_words)] is [0.0], as here. *)
Definition calculate_tfidf_score (py : interpreter) (query : string)
    (text : pyval) : Q :=
  if negb (truthy (PStr query)) || negb (truthy text) then 0%Q
  else
    match text with
    | PStr str_text =>
        let text := str_text in
        let query_words := set_order py (findall_words (lower query)) in
        let text_words := findall_words (lower text) in
        if bool_decide (query_words = []) || bool_decide (text_words = [])
        then 0%Q
        else
          let text_freq := Counter text_words in
          let total_words := length text_words in
          let base_score :=
            fdiv (sum py
                    (map (fun word =>
                            int_div (default 0%nat (text_freq !! word))
                                    total_words)
                         (filter (fun word => is_Some (text_freq !! word))
                                 query_words)))
                 (of_int (length query_words)) in
          let exact_match_bonus :=
            if str_in (lower query) (lower text) then 1%Q else 0%Q in
          let title_match_bonus :=
            if str_in "title" (lower text)
               && existsb (fun word => str_in word (lower text)) query_words
            then (1 # 2)%Q else 0%Q in
          fadd (fadd base_score exact_match_bonus) title_match_bonus
    | _ => 0%Q
    end.

(** ** The candidate passes *)

(** The loop of [search_videos]. *)
Fixpoint videos_loop (py : interpreter) (query : string)
    (videos_docs : stream) (results : list result)
    : outcome (list result) :=
  match videos_docs with
  | Done => Return results
  | Broken => Raise RepositoryError
  | Yield video_data rest =>
      let title := str (get video_data "title" (PStr "")) in
      let description := str (get video_data "description" (PStr "")) in
      let searchable_text := title +:+ " " +:+ description in
      let score := calculate_tfidf_score py query (PStr searchable_text) in
      videos_loop py query rest
        (if Qgtb score VIDEO_THRESHOLD
         then results ++ [VideoResult video_data score]
         else results)
  end.

(** [search_videos(query)]. *)
Definition search_videos (py : interpreter) (db : database)
    (query : string) : M (list result) :=
  videos_docs ← collection db "videos";
  match videos_loop py query videos_docs [] with
  | Return results => mret results
  | Raise _ => mret []
  end.

(** The text loop of [search_content_with_retry]. *)
Fixpoint text_loop (py : interpreter) (query : string) (text_docs : stream)
    (results : list result) : list result :=
  match text_docs with
  | Done => results
  | Broken => results
  | Yield data rest =>
      let content := get data "content" (PStr "") in
      let score := calculate_tfidf_score py query content in
      text_loop py query rest
        (if Qgtb score TEXT_THRESHOLD
         then results ++ [TextResult content
                            (get data "source_file" (PStr "Unknown"))
                            (get data "page" (PStr "N/A")) score]
         else results)
  end.

(** The image loop of [search_content_with_retry]. *)
Fixpoint image_loop (py : interpreter) (query : string)
    (image_docs : stream) (results : list result) : M (list result) :=
  match image_docs with
  | Done => mret results
  | Broken => mret results
  | Yield data rest =>
      let image_path := get data "image_path" (PStr "") in
      if negb (truthy image_path) then image_loop py query rest results
      else
        image_url ← get_public_url image_path;
        match image_url with
        | None => image_loop py query rest results
        | Some image_url =>
            if negb (truthy (PStr image_url))
            then image_loop py query rest results
            else
              let description :=
                get data "description"
                  (PStr ("Image from "
                         +:+ str (get data "source_file"
                                    (PStr "unknown document"))
                         +:+ " page " +:+ str (get data "page" (PStr ""))))
              in
              let score := calculate_tfidf_score py query description in
              image_loop py query rest
                (if Qgtb score IMAGE_THRESHOLD
                 then results ++ [ImageResult image_url description
                                    (get data "source_file" (PStr "Unknown"))
                                    (get data "page" (PStr "N/A")) score]
                 else results)
        end
  end.

(** The part of [search_content_with_retry] after the video branch. *)
Definition general_search (py : interpreter) (db : database)
    (query : string) (is_video_request : bool) : M (option result) :=
  text_docs ← collection db "pdf_text";
  let results := text_loop py query text_docs [] in
  image_docs ← collection db "pdf_images_new";
  results ← image_loop py query image_docs results;
  results ←
    (if negb is_video_request
     then video_results ← search_videos py db query;
          mret (results ++ video_results)
     else mret results);
  mret (best_of results).

(** The body of [search_content_with_retry], before decoration. *)
Definition search_content (py : interpreter) (db : database)
    (query : string) : M (outcome (option result)) :=
  let is_video_request := is_video_request query in
  if is_video_request then
    video_results ← search_videos py db query;
    match video_results with
    | x :: xs =>
        let best_video := max_from x xs in
        match title_of best_video with
        | Raise e => mret (Raise e)
        | Return _ => mret (Return (Some best_video))
        end
    | [] =>
        best_match ← general_search py db query is_video_request;
        mret (Return best_match)
    end
  else
    best_match ← general_search py db query is_video_request;
    mret (Return best_match).

(** [search_content_with_retry(query)], as decorated. *)
Definition search_content_with_retry (py : interpreter) (db : database)
    (query : string) : M (outcome (option result)) :=
  firestore_retry_decorator 3 (search_content py db query).

(** ** Notions used in the statements *)

(** The threshold a candidate of each type must exceed. *)
Definition threshold (ty : content_type) : Q :=
  match ty with
  | text => TEXT_THRESHOLD
  | image => IMAGE_THRESHOLD
  | video => VIDEO_THRESHOLD
  end.

(** The score [search_videos] gives a video document. *)
Definition video_score (py : interpreter) (query : string)
    (video_data : doc) : Q :=
  calculate_tfidf_score py query
    (PStr (str (get video_data "title" (PStr "")) +:+ " "
           +:+ str (get video_data "description" (PStr "")))).

(** What one video document adds to the results of [search_videos]. *)
Definition video_candidate (py : interpreter) (query : string)
    (video_data : doc) : option result :=
  let score := video_score py query video_data in
  if Qgtb score VIDEO_THRESHOLD then Some (VideoResult video_data score)
  else None.

(** What one text document adds to the results of the text loop. *)
Definition text_candidate (py : interpreter) (query : string) (data : doc)
    : option result :=
  let content := get data "content" (PStr "") in
  let score := calculate_tfidf_score py query content in
  if Qgtb score TEXT_THRESHOLD
  then Some (TextResult content (get data "source_file" (PStr "Unknown"))
               (get data "page" (PStr "N/A")) score)
  else None.

(** What one image document adds to the results of the image loop when
    the clock reads [t]. *)
Definition image_candidate (py : interpreter) (query : string) (t : Z)
    (data : doc) : option result :=
  let image_path := get data "image_path" (PStr "") in
  if negb (truthy image_path) then None
  else
    match public_url t image_path with
    | None => None
    | Some image_url =>
        if negb (truthy (PStr image_url)) then None
        else
          let description :=
            get data "description"
              (PStr ("Image from "
                     +:+ str (get data "source_file" (PStr "unknown document"))
                     +:+ " page " +:+ str (get data "page" (PStr "")))) in
          let score := calculate_tfidf_score py query description in
          if Qgtb score IMAGE_THRESHOLD
          then Some (ImageResult image_url description
                       (get data "source_file" (PStr "Unknown"))
                       (get data "page" (PStr "N/A")) score)
          else None
    end.

(** What [search_videos] returns: nothing when the stream raises. *)
Definition video_results (py : interpreter) (db : database)
    (query : string) : list result :=
  if breaks (videos db) then []
  else omap (video_candidate py query) (yielded (videos db)).

(** The list [results] of the general search when the clock reads [t]:
    text, then images, then (outside video requests) videos, each in the
    order fetched. *)
Definition candidate_pool (py : interpreter) (db : database)
    (query : string) (t : Z) (is_video_request : bool) : list result :=
  omap (text_candidate py query) (yielded (pdf_text db))
  ++ omap (image_candidate py query t) (yielded (pdf_images_new db))
  ++ (if is_video_request then [] else video_results py db query).

(** The base score in the words of the specification: over the unique
    query words present in the text, as the set yields them, the sum of
    frequency over total word count, divided by the number of unique
    query words; each operation is the one of the floats. *)
Definition spec_base_score (py : interpreter) (query text : string) : Q :=
  let T := findall_words (lower text) in
  fdiv (sum py (map (fun w => RN (Qnat (freq w T) / Qnat (length T))%Q)
                    (filter (fun w => w ∈ T)
                            (set_order py (findall_words (lower query))))))
       (RN (Qnat (length (unique_words query)))).

(** ** Sample interpreters and repositories *)

(** The set yields the words in the order of their first occurrence. *)
Definition first_seen : interpreter :=
  {| set_order := remove_dups;
     set_order_perm := fun words => Permutation_refl (remove_dups words);
     compensated := false |}.

(** The set yields them in the opposite order. *)
Definition last_seen : interpreter :=
  {| set_order := fun words => reverse (remove_dups words);
     set_order_perm := fun words => reverse_Permutation (remove_dups words);
     compensated := false |}.

(** As [first_seen], with the compensated [sum]. *)
Definition first_seen_compensated : interpreter :=
  {| set_order := remove_dups;
     set_order_perm := fun words => Permutation_refl (remove_dups words);
     compensated := true |}.

(** Twenty words, three of them the words of the query "cat dog fox":
    1/20 in exact arithmetic. *)
Definition twenty_words : doc :=
  text_doc "cat a dog b fox c d e f g h i j k l m n o p q" "pets.pdf" 5.

(** Ten words: one query word three times, and each of the three query
    words once. Both are 1/10 in exact arithmetic. *)
Definition first_passage : doc :=
  text_doc "cat cat cat a b c d e f g" "first.pdf" 1.

Definition second_passage : doc :=
  text_doc "cat a dog b fox c d e f g" "second.pdf" 1.

Definition db_passages : database :=
  {| pdf_text := Yield first_passage (Yield second_passage Done);
     pdf_images_new := Done;
     videos := Done |}.

(** A repository that holds the boundary passage only. *)
Definition db_boundary : database :=
  {| pdf_text := Yield boundary_text Done;
     pdf_images_new := Done;
     videos := Done |}.

(** ** The arithmetic against the hardware *)

(** On the operations of the examples below, [RN] gives what the
    processor gives. *)
Example RN_agrees_with_hardware :
  hardware (PrimFloat.div (hw 1) (hw 10)) = Some (int_div 1 10)
  /\ hardware (PrimFloat.div (hw 1) (hw 20)) = Some (int_div 1 20)
  /\ hardware (PrimFloat.div (hw 3) (hw 10)) = Some (int_div 3 10)
  /\ hardware (PrimFloat.div (hw 5) (hw 100)) = Some TEXT_THRESHOLD
  /\ hardware
       (PrimFloat.div
          (PrimFloat.add
             (PrimFloat.add (PrimFloat.div (hw 1) (hw 10))
                            (PrimFloat.div (hw 1) (hw 10)))
             (PrimFloat.div (hw 1) (hw 10)))
          (hw 3))
     = Some (fdiv (fadd (fadd (int_div 1 10) (int_div 1 10)) (int_div 1 10))
                  (of_int 3))
  /\ hardware (PrimFloat.div (PrimFloat.div (hw 3) (hw 10)) (hw 3))
     = Some (fdiv (int_div 3 10) (of_int 3))
  /\ hardware
       (PrimFloat.div
          (PrimFloat.add
             (PrimFloat.add (PrimFloat.div (hw 1) (hw 20))
                            (PrimFloat.div (hw 1) (hw 20)))
             (PrimFloat.div (hw 1) (hw 20)))
          (hw 3))
     = Some (fdiv (fadd (fadd (int_div 1 20) (int_div 1 20)) (int_div 1 20))
                  (of_int 3)).
Proof. vm_compute. repeat split; reflexivity. Qed.

(** ** The passes as filters over the yielded documents *)

Lemma videos_loop_kept (py : interpreter) (query : string) (s : stream) :
  forall results,
    videos_loop py query s results =
    if breaks s then Raise RepositoryError
    else Return (results ++ omap (video_candidate py query) (yielded s)).
Proof.
  induction s as [| |d rest IH]; intros results; simpl.
  - rewrite app_nil_r. reflexivity.
  - reflexivity.
  - rewrite IH. unfold video_candidate at 2, video_score.
    destruct (breaks rest); [reflexivity|].
    destruct (Qgtb _ VIDEO_THRESHOLD); [|reflexivity].
    rewrite <- app_assoc. reflexivity.
Qed.

Lemma text_loop_kept (py : interpreter) (query : string) (s : stream) :
  forall results,
    text_loop py query s results
    = results ++ omap (text_candidate py query) (yielded s).
Proof.
  induction s as [| |d rest IH]; intros results; simpl.
  - rewrite app_nil_r. reflexivity.
  - rewrite app_nil_r. reflexivity.
  - rewrite IH. unfold text_candidate at 2.
    destruct (Qgtb _ TEXT_THRESHOLD); [|reflexivity].
    rewrite <- app_assoc. reflexivity.
Qed.

Lemma image_loop_kept (py : interpreter) (query : string) (s : stream) :
  forall results st,
    image_loop py query s results st
    = (results ++ omap (image_candidate py query (now st)) (yielded s), st).
Proof.
  induction s as [| |d rest IH]; intros results st.
  - simpl. rewrite app_nil_r. reflexivity.
  - simpl. rewrite app_nil_r. reflexivity.
  - cbn [image_loop yielded]. rewrite omap_cons.
    unfold image_candidate at 1.
    destruct (negb (truthy (get d "image_path" (PStr "")))); [apply IH|].
    unfold mbind, M_bind. rewrite get_public_url_spec.
    destruct (public_url _ _) as [u|]; [|apply IH].
    destruct (negb (truthy (PStr u))); [apply IH|].
    rewrite IH.
    destruct (Qgtb _ IMAGE_THRESHOLD); [|reflexivity].
    rewrite <- app_assoc. reflexivity.
Qed.

Lemma search_videos_kept (py : interpreter) (db : database)
    (query : string) (st : state) :
  search_videos py db query st
  = (video_results py db query, logged st [Fetch "videos"]).
Proof.
  unfold search_videos, video_results, mbind, M_bind, collection. simpl.
  rewrite videos_loop_kept. destruct (breaks (videos db)); reflexivity.
Qed.

(** The general search returns the best of the pool. *)
Lemma general_search_best (py : interpreter) (db : database)
    (query : string) (b : bool) (st : state) :
  general_search py db query b st
  = (best_of (candidate_pool py db query (now st) b),
     logged st ([Fetch "pdf_text"; Fetch "pdf_images_new"]
                ++ if b then [] else [Fetch "videos"])).
Proof.
  unfold general_search, candidate_pool, mbind, M_bind, collection. simpl.
  rewrite text_loop_kept, image_loop_kept. simpl.
  destruct b; simpl.
  - unfold mret, M_ret, logged. simpl. rewrite app_nil_r.
    rewrite <- app_assoc. reflexivity.
  - rewrite search_videos_kept. unfold mret, M_ret, logged. simpl.
    rewrite <- !app_assoc. reflexivity.
Qed.

(** Outside video requests the decorated search is the general search,
    run once. *)
Lemma search_is_general_search (py : interpreter) (db : database)
    (query : string) (st : state) :
  is_video_request query = false ->
  search_content_with_retry py db query st
  = (Return (fst (general_search py db query false st)),
     snd (general_search py db query false st)).
Proof.
  intros E. unfold search_content_with_retry, firestore_retry_decorator.
  apply retry_loop_returns. unfold search_content. rewrite E.
  unfold mbind, M_bind.
  destruct (general_search py db query false st) as [r st']. reflexivity.
Qed.

(** ** Eligibility and the order of the pool *)

Lemma text_candidate_kept (py : interpreter) (q : string) (d : doc)
    (r : result) :
  text_candidate py q d = Some r ->
  type_of r = text /\ (TEXT_THRESHOLD < score_of r)%Q.
Proof.
  unfold text_candidate.
  destruct (Qgtb _ TEXT_THRESHOLD) eqn:E; [|discriminate].
  intros [= <-]. split; [reflexivity|]. apply Qgtb_true, E.
Qed.

Lemma image_candidate_kept (py : interpreter) (q : string) (t : Z)
    (d : doc) (r : result) :
  image_candidate py q t d = Some r ->
  type_of r = image /\ (IMAGE_THRESHOLD < score_of r)%Q.
Proof.
  unfold image_candidate.
  destruct (negb (truthy (get d "image_path" (PStr "")))); [discriminate|].
  destruct (public_url t _) as [u|]; [|discriminate].
  destruct (negb (truthy (PStr u))); [discriminate|].
  destruct (Qgtb _ IMAGE_THRESHOLD) eqn:E; [|discriminate].
  intros [= <-]. split; [reflexivity|]. apply Qgtb_true, E.
Qed.

Lemma video_candidate_kept (py : interpreter) (q : string) (d : doc)
    (r : result) :
  video_candidate py q d = Some r ->
  type_of r = video /\ (VIDEO_THRESHOLD < score_of r)%Q.
Proof.
  unfold video_candidate.
  destruct (Qgtb _ VIDEO_THRESHOLD) eqn:E; [|discriminate].
  intros [= <-]. split; [reflexivity|]. apply Qgtb_true, E.
Qed.

(** A result of type [ty] above the threshold of its type. *)
Definition kept_as (ty : content_type) (r : result) : Prop :=
  type_of r = ty /\ (threshold ty < score_of r)%Q.

Lemma omap_kept {A : Type} (f : A -> option result) (ty : content_type)
    (l : list A) :
  (forall x r, f x = Some r -> kept_as ty r) ->
  Forall (kept_as ty) (omap f l).
Proof.
  intros Hf. apply Forall_forall. intros r Hr.
  apply list_elem_of_omap in Hr as (x & _ & Hx). exact (Hf x r Hx).
Qed.

Lemma video_results_kept (py : interpreter) (db : database) (q : string) :
  Forall (kept_as video) (video_results py db q).
Proof.
  unfold video_results. destruct (breaks (videos db)); [constructor|].
  apply omap_kept, video_candidate_kept.
Qed.

Lemma kept_sorted (ty : content_type) (l : list result) :
  Forall (kept_as ty) l -> StronglySorted by_rank l.
Proof.
  induction 1 as [|x l [Hx _] Hl IH]; constructor; [exact IH|].
  apply Forall_forall. intros y Hy.
  rewrite Forall_forall in Hl. destruct (Hl y Hy) as [Hty _].
  unfold by_rank. rewrite Hx, Hty. lia.
Qed.

Lemma kept_apart (ty1 ty2 : content_type) (l1 l2 : list result) :
  (rank ty1 <= rank ty2)%nat ->
  Forall (kept_as ty1) l1 -> Forall (kept_as ty2) l2 ->
  forall x1 x2, x1 ∈ l1 -> x2 ∈ l2 -> by_rank x1 x2.
Proof.
  intros Hr H1 H2 x1 x2 Hx1 Hx2. rewrite Forall_forall in H1, H2.
  destruct (H1 x1 Hx1) as [E1 _], (H2 x2 Hx2) as [E2 _].
  unfold by_rank. rewrite E1, E2. exact Hr.
Qed.

Lemma pool_parts (py : interpreter) (db : database) (q : string) (t : Z)
    (b : bool) :
  Forall (kept_as text) (omap (text_candidate py q) (yielded (pdf_text db)))
  /\ Forall (kept_as image)
       (omap (image_candidate py q t) (yielded (pdf_images_new db)))
  /\ Forall (kept_as video) (if b then [] else video_results py db q).
Proof.
  split; [apply omap_kept, text_candidate_kept|].
  split; [apply omap_kept, image_candidate_kept|].
  destruct b; [constructor|apply video_results_kept].
Qed.

Lemma pool_above_threshold (py : interpreter) (db : database) (q : string)
    (t : Z) (b : bool) (c : result) :
  c ∈ candidate_pool py db q t b ->
  (threshold (type_of c) < score_of c)%Q.
Proof.
  destruct (pool_parts py db q t b) as (Ht & Hi & Hv).
  rewrite Forall_forall in Ht, Hi, Hv.
  unfold candidate_pool. rewrite !elem_of_app. intros [H|[H|H]].
  - destruct (Ht c H) as [-> Hc]. exact Hc.
  - destruct (Hi c H) as [-> Hc]. exact Hc.
  - destruct (Hv c H) as [-> Hc]. exact Hc.
Qed.

Lemma pool_sorted (py : interpreter) (db : database) (q : string) (t : Z)
    (b : bool) :
  StronglySorted by_rank (candidate_pool py db q t b).
Proof.
  destruct (pool_parts py db q t b) as (Ht & Hi & Hv).
  unfold candidate_pool.
  apply StronglySorted_app_2; [|exact (kept_sorted _ _ Ht)|].
  - intros x1 x2 Hx1 Hx2. apply elem_of_app in Hx2 as [Hx2|Hx2].
    + exact (kept_apart text image _ _ ltac:(simpl; lia) Ht Hi _ _ Hx1 Hx2).
    + exact (kept_apart text video _ _ ltac:(simpl; lia) Ht Hv _ _ Hx1 Hx2).
  - apply StronglySorted_app_2;
      [|exact (kept_sorted _ _ Hi)|exact (kept_sorted _ _ Hv)].
    exact (kept_apart image video _ _ ltac:(simpl; lia) Hi Hv).
Qed.

(** ** The scorer past its guards *)





(** ** The formula of the score *)



(** The order of the set shows in the score: with one, two and three
    occurrences among ten words, the sum is 0.6000000000000001 from the
    rarest word on and 0.6 from the most frequent on. *)
Example set_order_changes_the_score :
  calculate_tfidf_score first_seen "a b c" (PStr "a b b c c c d e f g")
  = fdiv (fadd (fadd (int_div 1 10) (int_div 2 10)) (int_div 3 10))
         (of_int 3)
  /\ calculate_tfidf_score last_seen "a b c" (PStr "a b b c c c d e f g")
     = fdiv (fadd (fadd (int_div 3 10) (int_div 2 10)) (int_div 1 10))
            (of_int 3)
  /\ (calculate_tfidf_score last_seen "a b c" (PStr "a b b c c c d e f g")
      < calculate_tfidf_score first_seen "a b c"
          (PStr "a b b c c c d e f g"))%Q
  /\ hardware
       (PrimFloat.div
          (PrimFloat.add
             (PrimFloat.add (PrimFloat.div (hw 1) (hw 10))
                            (PrimFloat.div (hw 2) (hw 10)))
             (PrimFloat.div (hw 3) (hw 10)))
          (hw 3))
     = Some (calculate_tfidf_score first_seen "a b c"
               (PStr "a b b c c c d e f g"))
  /\ hardware
       (PrimFloat.div
          (PrimFloat.add
             (PrimFloat.add (PrimFloat.div (hw 3) (hw 10))
                            (PrimFloat.div (hw 2) (hw 10)))
             (PrimFloat.div (hw 1) (hw 10)))
          (hw 3))
     = Some (calculate_tfidf_score last_seen "a b c"
               (PStr "a b b c c c d e f g")).
Proof. vm_compute. repeat split; reflexivity. Qed.

(** ** Thresholds *)

(** C6. The threshold of the text pass is exclusive. The candidate of a
    fetched passage is among the results of the text loop exactly when
    its score is strictly above 0.05, the float of the literal: a
    passage whose score is exactly that float is left out, and every
    result of the loop scores strictly above it. The same holds of the
    list of candidates of the general search, in which every candidate,
    of whatever type, scores strictly above the threshold of its type.
    Through the search: a passage above the threshold makes the search
    return a result that scores no less, and when no passage is above it
    and there is no image and no video, the search returns nothing. *)
Theorem text_threshold_exclusive (py : interpreter) (q : string)
    (s : stream) (data : doc) :
  data ∈ yielded s ->
  let content := get data "content" (PStr "") in
  let score := calculate_tfidf_score py q content in
  let candidate :=
    TextResult content (get data "source_file" (PStr "Unknown"))
      (get data "page" (PStr "N/A")) score in
  (candidate ∈ text_loop py q s [] <-> (TEXT_THRESHOLD < score)%Q)
  /\ ((score == TEXT_THRESHOLD)%Q -> candidate ∉ text_loop py q s [])
  /\ (forall r, r ∈ text_loop py q s [] -> (TEXT_THRESHOLD < score_of r)%Q)
  /\ (forall (db : database) (b : bool) (st : state),
        pdf_text db = s ->
        (candidate ∈ candidate_pool py db q (now st) b
         <-> (TEXT_THRESHOLD < score)%Q)
        /\ (forall c, c ∈ candidate_pool py db q (now st) b ->
                      (threshold (type_of c) < score_of c)%Q)
        /\ ((TEXT_THRESHOLD < score)%Q ->
            exists best,
              fst (general_search py db q b st) = Some best
              /\ (score <= score_of best)%Q)
        /\ ((forall d, d ∈ yielded s ->
                       (calculate_tfidf_score py q
                          (get d "content" (PStr "")) <= TEXT_THRESHOLD)%Q) ->
            pdf_images_new db = Done -> videos db = Done ->
            fst (general_search py db q b st) = None)).
Proof.
  intros Hdata. cbv zeta.
  assert (Hin : forall r, r ∈ text_loop py q s []
                          <-> exists d, d ∈ yielded s
                                        /\ text_candidate py q d = Some r).
  { intros r. rewrite text_loop_kept. cbn [app].
    rewrite list_elem_of_omap. reflexivity. }
  assert (Habove : forall r, r ∈ text_loop py q s [] ->
                             (TEXT_THRESHOLD < score_of r)%Q).
  { intros r Hr. apply Hin in Hr as (d & _ & Hd).
    apply text_candidate_kept in Hd as [_ Hd]. exact Hd. }
  assert (Hkept : (TEXT_THRESHOLD
                   < calculate_tfidf_score py q
                       (get data "content" (PStr "")))%Q ->
                  text_candidate py q data
                  = Some (TextResult (get data "content" (PStr ""))
                            (get data "source_file" (PStr "Unknown"))
                            (get data "page" (PStr "N/A"))
                            (calculate_tfidf_score py q
                               (get data "content" (PStr ""))))).
  { intros H. unfold text_candidate. apply Qgtb_true in H. rewrite H.
    reflexivity. }
  split; [|split; [|split; [exact Habove|]]].
  - split.
    + intros H. exact (Habove _ H).
    + intros H. apply Hin. exists data. split; [exact Hdata|exact (Hkept H)].
  - intros Heq H. apply Habove in H. cbn [score_of] in H.
    rewrite Heq in H. exact (Qlt_irrefl _ H).
  - intros db b st Hs. rewrite general_search_best. cbn [fst].
    split; [|split; [intros c; apply pool_above_threshold|split]].
    + split.
      * intros H. apply pool_above_threshold in H. exact H.
      * intros H. unfold candidate_pool. apply elem_of_app. left.
        rewrite Hs. apply list_elem_of_omap. exists data.
        split; [exact Hdata|exact (Hkept H)].
    + intros H.
      assert (Hc : TextResult (get data "content" (PStr ""))
                     (get data "source_file" (PStr "Unknown"))
                     (get data "page" (PStr "N/A"))
                     (calculate_tfidf_score py q
                        (get data "content" (PStr "")))
                   ∈ candidate_pool py db q (now st) b).
      { unfold candidate_pool. apply elem_of_app. left. rewrite Hs.
        apply list_elem_of_omap. exists data.
        split; [exact Hdata|exact (Hkept H)]. }
      destruct (best_of (candidate_pool py db q (now st) b)) as [best|]
        eqn:E.
      * exists best. split; [reflexivity|].
        apply best_of_first_max in E.
        exact (first_max_upper _ _ E _ Hc).
      * apply best_of_None in E. rewrite E in Hc.
        apply elem_of_nil in Hc. contradiction.
    + intros Hall Hi Hv. apply best_of_None.
      unfold candidate_pool, video_results. rewrite Hs, Hi, Hv.
      cbn [yielded omap breaks].
      assert (Hnone : omap (text_candidate py q) (yielded s) = []).
      { clear Hdata Hin Habove Hkept. induction (yielded s) as [|d l IH];
          [reflexivity|].
        rewrite omap_cons. unfold text_candidate at 1.
        rewrite (proj2 (Qgtb_false _ _) (Hall d (list_elem_of_here _ _))).
        apply IH. intros d' Hd'. apply Hall, list_elem_of_further, Hd'. }
      rewrite Hnone. destruct b; reflexivity.
Qed.

Lemma text_threshold_exclusive_witness :
  calculate_tfidf_score first_seen "cat dog" (PStr "cat b c d e f g h i j")
  = TEXT_THRESHOLD
  /\ text_loop first_seen "cat dog" (Yield boundary_text Done) [] = []
  /\ fst (general_search first_seen db_boundary "cat dog" false st0) = None
  /\ TextResult (PStr "cat b c d e f g h i j") (PStr "pets.pdf") (PInt 4)
       (calculate_tfidf_score first_seen "cat"
          (PStr "cat b c d e f g h i j"))
     ∈ text_loop first_seen "cat" (Yield boundary_text Done) [].
Proof.
  split; [vm_compute; reflexivity|]. split; [vm_compute; reflexivity|].
  split.
  - apply (proj2 (proj2 (proj2 (proj2 (proj2 (proj2
             (text_threshold_exclusive first_seen "cat dog"
                (Yield boundary_text Done) boundary_text
                (list_elem_of_here _ _))))
             db_boundary false st0 eq_refl))));
      [|reflexivity|reflexivity].
    intros d Hd. apply list_elem_of_singleton in Hd as ->.
    vm_compute. discriminate.
  - apply (proj1 (text_threshold_exclusive first_seen "cat"
                    (Yield boundary_text Done) boundary_text
                    (list_elem_of_here _ _))).
    vm_compute. reflexivity.
Defined.

(** Rounding can lift a score over the threshold: three query words,
    each once among twenty, give 0.05000000000000001 where the exact
    quotient is 1/20, and the passage is kept. *)
Example rounding_lifts_a_score_over_the_threshold :
  calculate_tfidf_score first_seen "cat dog fox"
    (get twenty_words "content" (PStr ""))
  = fdiv (fadd (fadd (int_div 1 20) (int_div 1 20)) (int_div 1 20))
         (of_int 3)
  /\ (TEXT_THRESHOLD
      < calculate_tfidf_score first_seen "cat dog fox"
          (get twenty_words "content" (PStr "")))%Q
  /\ text_loop first_seen "cat dog fox" (Yield twenty_words Done) []
     = [TextResult (get twenty_words "content" (PStr "")) (PStr "pets.pdf")
          (PInt 5)
          (calculate_tfidf_score first_seen "cat dog fox"
             (get twenty_words "content" (PStr "")))]
  /\ text_loop first_seen_compensated "cat dog fox"
       (Yield twenty_words Done) []
     = text_loop first_seen "cat dog fox" (Yield twenty_words Done) [].
Proof. vm_compute. repeat split; reflexivity. Qed.

(** ** Ties *)

(** C2, as the claim states it, fails: with a text, an image and a video
    at the same maximal score, the search returns the text, not the
    video. *)
Lemma tie_break_counterexample :
  is_video_request "cat" = false
  /\ candidate_pool first_seen db_tie "cat" (now st0) false
     = [TextResult (PStr "cat") (PStr "pets.pdf") (PInt 1) 2;
        ImageResult
          "https://storage.googleapis.com/allpdfs-bucket/img/cat.png?t=1700000000"
          (PStr "cat") (PStr "report.pdf") (PStr "N/A") 2;
        VideoResult cat_video 2]
  /\ fst (search_content_with_retry first_seen db_tie "cat" st0)
     = Return (Some (TextResult (PStr "cat") (PStr "pets.pdf") (PInt 1) 2)).
Proof. vm_compute. repeat split; reflexivity. Qed.

(** C2, amended. The list of candidates is what the three passes
    append, text, then image, then video, each above the threshold of
    its type. The general search returns nothing exactly when the list
    is empty, and otherwise a candidate of maximum score; among the
    candidates of that score it is the first of the list, so the first
    in the order text, image, video and, within a type, the first
    fetched. Outside video requests this is what the decorated search
    returns. *)
Theorem general_search_first_max (py : interpreter) (db : database)
    (q : string) (b : bool) (st : state) :
  let pool := candidate_pool py db q (now st) b in
  let found := fst (general_search py db q b st) in
  pool = text_loop py q (pdf_text db) []
         ++ fst (image_loop py q (pdf_images_new db) [] st)
         ++ (if b then [] else fst (search_videos py db q st))
  /\ (forall c, c ∈ pool -> (threshold (type_of c) < score_of c)%Q)
  /\ StronglySorted by_rank pool
  /\ (found = None <-> pool = [])
  /\ (pool <> [] ->
      exists best,
        found = Some best
        /\ first_max best pool
        /\ (forall c, c ∈ pool -> (score_of c <= score_of best)%Q)
        /\ (forall c, c ∈ pool -> (score_of c == score_of best)%Q ->
                      (rank (type_of best) <= rank (type_of c))%nat))
  /\ (is_video_request q = false ->
      fst (search_content_with_retry py db q st)
      = Return (fst (general_search py db q false st))).
Proof.
  cbv zeta. rewrite general_search_best. cbn [fst].
  split; [|split; [|split; [|split; [|split]]]].
  - unfold candidate_pool.
    rewrite text_loop_kept, image_loop_kept, search_videos_kept.
    reflexivity.
  - intros c. apply pool_above_threshold.
  - apply pool_sorted.
  - apply best_of_None.
  - intros Hne.
    destruct (best_of (candidate_pool py db q (now st) b)) as [best|] eqn:E;
      [|apply best_of_None in E; contradiction].
    exists best. apply best_of_first_max in E.
    split; [reflexivity|]. split; [exact E|]. split.
    + exact (first_max_upper _ _ E).
    + exact (first_max_least_rank _ _ (pool_sorted _ _ _ _ _) E).
  - intros Hv. rewrite (search_is_general_search py db q st Hv).
    reflexivity.
Qed.

Lemma general_search_first_max_witness :
  exists best,
    fst (general_search first_seen db_tie "cat" false st0) = Some best
    /\ first_max best (candidate_pool first_seen db_tie "cat" (now st0) false)
    /\ (forall c,
          c ∈ candidate_pool first_seen db_tie "cat" (now st0) false ->
          (score_of c <= score_of best)%Q)
    /\ (forall c,
          c ∈ candidate_pool first_seen db_tie "cat" (now st0) false ->
          (score_of c == score_of best)%Q ->
          (rank (type_of best) <= rank (type_of c))%nat).
Proof.
  apply (proj1 (proj2 (proj2 (proj2 (proj2
           (general_search_first_max first_seen db_tie "cat" false st0)))))).
  vm_compute. discriminate.
Defined.

(** Rounding can break a tie: two passages at 1/10 in exact arithmetic
    score 0.09999999999999999 and 0.10000000000000002, and the search
    returns the second although the first was fetched first. *)
Example rounding_breaks_a_tie :
  calculate_tfidf_score first_seen "cat dog fox"
    (get first_passage "content" (PStr ""))
  = fdiv (int_div 3 10) (of_int 3)
  /\ calculate_tfidf_score first_seen "cat dog fox"
       (get second_passage "content" (PStr ""))
     = fdiv (fadd (fadd (int_div 1 10) (int_div 1 10)) (int_div 1 10))
            (of_int 3)
  /\ (calculate_tfidf_score first_seen "cat dog fox"
        (get first_passage "content" (PStr ""))
      < calculate_tfidf_score first_seen "cat dog fox"
          (get second_passage "content" (PStr "")))%Q
  /\ fst (search_content_with_retry first_seen db_passages "cat dog fox" st0)
     = Return (Some (TextResult (get second_passage "content" (PStr ""))
                       (PStr "second.pdf") (PInt 1)
                       (calculate_tfidf_score first_seen "cat dog fox"
                          (get second_passage "content" (PStr "")))))
  /\ fst (search_content_with_retry first_seen_compensated db_passages
            "cat dog fox" st0)
     = fst (search_content_with_retry first_seen db_passages "cat dog fox"
              st0).
Proof. vm_compute. repeat split; reflexivity. Qed.

End Binary64.
